(** * caddy2-zlog: a shallow embedding of the logging middleware

    The development follows the Go sources [handler.go] and [zlog.go].
    Go strings are byte strings and are modelled by [string] (a list of
    8-bit characters); Go maps ([url.Values], [http.Header], the JSON
    object handed to the redaction sink) are modelled by [gmap]; the
    state a request's handlers share is passed along explicitly.

    The first part embeds the code, with the library functions it calls:
    [strings], [net/url] (as of Go 1.17, where a semicolon in a query is
    an error), [strconv], [net/http] headers and response writer, and
    [zerolog] contexts. Functions of other packages whose results are only
    passed on ([goutil.MD5], [goutil.JSONMarshal], [httputil.DumpRequest],
    [xid], [strconv.ParseFloat]) and the order in which [range] visits a
    map are parameters. The second part holds the terms the properties
    are stated in, the third the properties. *)

From Stdlib Require Import Ascii String NArith ZArith List Floats.
From stdpp Require Import base option list gmap strings fin_maps sorting.

Local Open Scope string_scope.

(** ** Byte strings: the pieces of Go's [strings] package that are used *)

Module GoStrings.

Definition CR : ascii := "013"%char.
Definition LF : ascii := "010"%char.

(** The literal ["\r\n\r\n"] of [hashPostRequest]. *)
Definition CRLFCRLF : string := String CR (String LF (String CR (String LF ""))).

(** [strings.Split(s, sep)] for a non-empty [sep]: cut at every
    occurrence of [sep], leftmost first, occurrences not overlapping.
    [skip] counts the bytes of a matched separator still to be dropped. *)
Fixpoint Split_go (sep : string) (skip : nat) (s : string) : list string :=
  match s with
  | "" => [""]
  | String c s' =>
      match skip with
      | S n => Split_go sep n s'
      | O =>
          if String.prefix sep s
          then "" :: Split_go sep (String.length sep - 1) s'
          else match Split_go sep 0 s' with
               | p :: ps => String c p :: ps
               | [] => [String c ""]
               end
      end
  end.

Definition Split (s sep : string) : list string := Split_go sep 0 s.

(** [strings.Cut(s, sep)] for a one-byte separator. *)
Fixpoint Cut (s : string) (sep : ascii) : string * string * bool :=
  match s with
  | "" => ("", "", false)
  | String a s' =>
      if Ascii.eqb a sep then ("", s', true)
      else let '(before, after, found) := Cut s' sep in
           (String a before, after, found)
  end.

(** [strings.Contains(s, string(c))]. *)
Fixpoint ContainsByte (s : string) (c : ascii) : bool :=
  match s with
  | "" => false
  | String a s' => Ascii.eqb a c || ContainsByte s' c
  end.

(** [strings.Join(l, sep)]. *)
Definition Join (l : list string) (sep : string) : string := String.concat sep l.

(** A string of [n] copies of one byte (used for test inputs). *)
Fixpoint Repeat (c : ascii) (n : nat) : string :=
  match n with
  | O => ""
  | S n' => String c (Repeat c n')
  end.

End GoStrings.

(** ** [net/url]: query parsing and encoding *)

Module URL.
Import GoStrings.

Definition between (lo hi c : ascii) : bool :=
  (N_of_ascii lo <=? N_of_ascii c)%N && (N_of_ascii c <=? N_of_ascii hi)%N.

Definition ishex (c : ascii) : bool :=
  between "0" "9" c || between "a" "f" c || between "A" "F" c.

Definition unhex (c : ascii) : N :=
  if between "0" "9" c then (N_of_ascii c - 48)%N
  else if between "a" "f" c then (N_of_ascii c - 97 + 10)%N
  else if between "A" "F" c then (N_of_ascii c - 65 + 10)%N
  else 0%N.

(** [shouldEscape(c, encodeQueryComponent)]: only the unreserved bytes
    (letters, digits, [-], [_], [.], [~]) are left alone. *)
Definition shouldEscape (c : ascii) : bool :=
  negb (between "a" "z" c || between "A" "Z" c || between "0" "9" c
        || Ascii.eqb c "-" || Ascii.eqb c "_" || Ascii.eqb c "." || Ascii.eqb c "~").

Definition upperhex (n : N) : ascii :=
  if (n <? 10)%N then ascii_of_N (48 + n)%N else ascii_of_N (65 + (n - 10))%N.

(** [url.QueryEscape]. *)
Fixpoint QueryEscape (s : string) : string :=
  match s with
  | "" => ""
  | String c s' =>
      if Ascii.eqb c " " then String "+" (QueryEscape s')
      else if shouldEscape c
           then String "%" (String (upperhex (N_of_ascii c / 16)%N)
                           (String (upperhex (N_of_ascii c mod 16)%N) (QueryEscape s')))
           else String c (QueryEscape s')
  end.

(** [url.QueryUnescape]; [None] stands for the [EscapeError] result. *)
Fixpoint QueryUnescape (s : string) : option string :=
  match s with
  | "" => Some ""
  | String c s' =>
      if Ascii.eqb c "%" then
        match s' with
        | String h1 (String h2 rest) =>
            if ishex h1 && ishex h2
            then String (ascii_of_N (unhex h1 * 16 + unhex h2)%N) <$> QueryUnescape rest
            else None
        | _ => None
        end
      else if Ascii.eqb c "+" then String " " <$> QueryUnescape s'
      else String c <$> QueryUnescape s'
  end.

(** [url.Values] is [map[string][]string]. *)
Abbreviation Values := (gmap string (list string)).

(** [Values.Get]: the first value of the key, or [""]. *)
Definition Get (v : Values) (key : string) : string :=
  match v !! key with
  | Some (x :: _) => x
  | _ => ""
  end.

(** [Values.Set]: replaces whatever the key held by the one value. *)
Definition Set_ (v : Values) (key value : string) : Values :=
  <[key := [value]]> v.

Inductive QueryError := EscapeError | SemicolonError.

(** One turn of the loop of [parseQuery] on the piece [key] cut off at
    the next ["&"]; [m[key] = append(m[key], value)] at the end. *)
Definition parsePiece (st : Values * option QueryError) (piece : string)
  : Values * option QueryError :=
  let '(m, err) := st in
  if ContainsByte piece ";" then (m, Some SemicolonError)
  else if String.eqb piece "" then (m, err)
  else
    let '(key, value, _) := Cut piece "=" in
    match QueryUnescape key with
    | None => (m, Some (default EscapeError err))
    | Some key1 =>
        match QueryUnescape value with
        | None => (m, Some (default EscapeError err))
        | Some value1 => (<[key1 := (default [] (m !! key1) ++ [value1])%list]> m, err)
        end
    end.

(** [url.ParseQuery]: the map built so far is returned together with the
    first error met ([None] is Go's [nil] error). *)
Definition ParseQuery (query : string) : Values * option QueryError :=
  fold_left parsePiece (Split query "&") (∅, None).

(** The keys of [Values.Encode], after [sort.Strings]. *)
Definition sortedKeys (v : Values) : list string :=
  merge_sort String.le (map_to_list v).*1.

(** The [key=value] pieces written by [Values.Encode], in order. *)
Definition encodePieces (v : Values) : list string :=
  k ← sortedKeys v;
  (fun x => QueryEscape k +:+ "=" +:+ QueryEscape x) <$> default [] (v !! k).

(** [Values.Encode]: every piece holds an ["="], so the buffer is empty
    only before the first piece and the pieces are joined by ["&"]. *)
Definition Encode (v : Values) : string := Join (encodePieces v) "&".

End URL.

(** ** [strconv]: the parsers of the typed response-header stage *)

Module Strconv.
Import URL.

(** [strconv.ParseBool]. *)
Definition ParseBool (s : string) : option bool :=
  if existsb (String.eqb s) ["1"; "t"; "T"; "TRUE"; "true"; "True"] then Some true
  else if existsb (String.eqb s) ["0"; "f"; "F"; "FALSE"; "false"; "False"] then Some false
  else None.

(** The value of a run of decimal digits, [None] on any other byte. *)
Fixpoint digits (acc : N) (s : string) : option N :=
  match s with
  | "" => Some acc
  | String c s' =>
      if between "0" "9" c then digits (acc * 10 + (N_of_ascii c - 48))%N s' else None
  end.

(** [strconv.ParseUint(s, 10, 64)]: a syntax or range error is [None]. *)
Definition ParseUint (s : string) : option N :=
  match s with
  | "" => None
  | _ => n ← digits 0%N s; if (n <? 2 ^ 64)%N then Some n else None
  end.

(** [strconv.ParseInt(s, 10, 64)]. *)
Definition ParseInt (s : string) : option Z :=
  match s with
  | "" => None
  | String c s' =>
      let neg := Ascii.eqb c "-" in
      let rest := if Ascii.eqb c "+" || neg then s' else s in
      match rest with
      | "" => None
      | _ =>
          un ← digits 0%N rest;
          if neg then (if (un <=? 2 ^ 63)%N then Some (- Z.of_N un)%Z else None)
          else (if (un <? 2 ^ 63)%N then Some (Z.of_N un) else None)
      end
  end.

End Strconv.

(** ** [net/http]: header maps and the host's response writer *)

Module HTTP.
Import URL.

(** [http.Header] is [map[string][]string]. *)
Abbreviation Header := (gmap string (list string)).

Definition validHeaderFieldByte (c : ascii) : bool :=
  between "a" "z" c || between "A" "Z" c || between "0" "9" c
  || existsb (Ascii.eqb c)
       ["!"; "#"; "$"; "%"; "&"; "'"; "*"; "+"; "-"; "."; "^"; "_"; "`"; "|"; "~"]%char.

Fixpoint validHeaderKey (s : string) : bool :=
  match s with
  | "" => true
  | String c s' => validHeaderFieldByte c && validHeaderKey s'
  end.

Fixpoint canonicalLoop (upper : bool) (s : string) : string :=
  match s with
  | "" => ""
  | String c s' =>
      let c' := if upper && between "a" "z" c then ascii_of_N (N_of_ascii c - 32)%N
                else if negb upper && between "A" "Z" c then ascii_of_N (N_of_ascii c + 32)%N
                else c in
      String c' (canonicalLoop (Ascii.eqb c' "-") s')
  end.

(** [textproto.CanonicalMIMEHeaderKey]: a key that is not a header token is
    left as it is. *)
Definition CanonicalMIMEHeaderKey (s : string) : string :=
  if validHeaderKey s then canonicalLoop true s else s.

(** [Header.Get], [Header.Set], [Header.Add], [Header.Del]. *)
Definition HGet (h : Header) (key : string) : string :=
  match h !! CanonicalMIMEHeaderKey key with
  | Some (x :: _) => x
  | _ => ""
  end.

Definition HSet (h : Header) (key value : string) : Header :=
  <[CanonicalMIMEHeaderKey key := [value]]> h.

Definition HAdd (h : Header) (key value : string) : Header :=
  let k := CanonicalMIMEHeaderKey key in
  <[k := (default [] (h !! k) ++ [value])%list]> h.

Definition HDel (h : Header) (key : string) : Header :=
  delete (CanonicalMIMEHeaderKey key) h.

(** The host's [http.ResponseWriter]: the header map handlers may still
    change, what has been sent on the wire (status line and header block,
    once), and the body bytes sent. *)
Record ResponseWriter := mkRW {
  rwHeader : Header;
  rwSent : option (Z * Header);
  rwBody : string
}.

(** [WriteHeader] sends the status and a snapshot of the header map; a
    second call is ignored. *)
Definition rwWriteHeader (code : Z) (w : ResponseWriter) : ResponseWriter :=
  match rwSent w with
  | Some _ => w
  | None => mkRW (rwHeader w) (Some (code, rwHeader w)) (rwBody w)
  end.

(** [Write] sends the header block with status 200 if none was sent. *)
Definition rwWrite (b : string) (w : ResponseWriter) : ResponseWriter :=
  let w' := rwWriteHeader 200 w in
  mkRW (rwHeader w') (rwSent w') (rwBody w' +:+ b).

Definition rwSetHeader (h : Header) (w : ResponseWriter) : ResponseWriter :=
  mkRW h (rwSent w) (rwBody w).

End HTTP.

(** ** [zerolog]: logger contexts *)

Module Zerolog.

Inductive FieldValue :=
| VStr (s : string)
| VBool (b : bool)
| VInt64 (z : Z)
| VUint64 (n : N)
| VFloat64 (f : float).

(** A [zerolog.Context]: the fields appended to the logger so far. *)
Abbreviation Context := (list (string * FieldValue)).

Definition Str (key val : string) (c : Context) : Context := (c ++ [(key, VStr val)])%list.
Definition Bool (key : string) (b : bool) (c : Context) : Context := (c ++ [(key, VBool b)])%list.
Definition Int64 (key : string) (z : Z) (c : Context) : Context := (c ++ [(key, VInt64 z)])%list.
Definition Uint64 (key : string) (n : N) (c : Context) : Context := (c ++ [(key, VUint64 n)])%list.
Definition Float64 (key : string) (f : float) (c : Context) : Context := (c ++ [(key, VFloat64 f)])%list.

(** The heap of [*zerolog.Logger] values of the requests in flight. *)
Abbreviation Loggers := (list Context).

(** [l := log.With().Logger()] followed by taking [&l]: a new logger whose
    context is a copy of the base logger's. *)
Definition install (base : Context) (ls : Loggers) : nat * Loggers :=
  (length ls, (ls ++ [base])%list).

(** [l.UpdateContext(update)] on the logger [zerolog.Ctx] found in the
    request's context; with no logger there it is the disabled logger and
    nothing happens. *)
Definition updateContext (l : option nat) (update : Context → Context) (ls : Loggers)
  : Loggers :=
  match l with
  | Some i => alter update i ls
  | None => ls
  end.

End Zerolog.

(** ** The middleware: [handler.go] and [zlog.go] *)

Module Zlog.
Import GoStrings URL Strconv HTTP Zerolog.

(** An [http.ResponseWriter] value held by a handler: the host's writer, or
    a pointer to a [RespProxyWriter] of the heap. *)
Inductive Writer :=
| WHost
| WProxy (p : nat).

(** Modelled from the spec: the type [RespProxyWriter] (its file is not
    among the sources). It holds the captured status code, the captured
    body, [SourceHeader], the copy of the headers as staged before the
    flush, and the names handed to [delHeader]. The writer it wraps is the
    host's: by [NewRespProxyWriter] a proxy never wraps a proxy. *)
Record RespProxyWriter := mkProxy {
  Code : Z;
  wroteHeader : bool;
  Body : string;
  SourceHeader : Header;
  flushed : bool;
  delHeaders : list string
}.

(** The parts of [*http.Request] the stages read; [ctxLogger] is the
    [*zerolog.Logger] stored in [r.Context()], if any. *)
Record Request := mkRequest {
  Method : string;
  RequestURI : string;
  RemoteAddr : string;
  ctxLogger : option nat
}.

(** Modelled from the spec: the type [ResponseLog] (declared outside the
    sources at hand), with the fields [DumpResponseHandler] fills in: the
    request, the captured status code, the captured body and the captured
    headers as text. *)
Record ResponseLog := mkResponseLog {
  logRequest : Request;
  StatusCode : Z;
  logBody : string;
  logHeader : string
}.

(** What one request's handlers share and mutate. *)
Record World := mkWorld {
  loggers : Loggers;                 (* the heap of request loggers *)
  reqHeader : Header;                (* [r.Header], one map for every copy of [r] *)
  host : ResponseWriter;             (* the host's response writer *)
  proxies : list RespProxyWriter;    (* the heap of proxies *)
  hashStore : option (list string);  (* [c.hashStore]: nil, or the lines written *)
  xids : nat                         (* the state of the id generator *)
}.

Definition setLoggers (ls : Loggers) (σ : World) : World :=
  mkWorld ls (reqHeader σ) (host σ) (proxies σ) (hashStore σ) (xids σ).
Definition setReqHeader (h : Header) (σ : World) : World :=
  mkWorld (loggers σ) h (host σ) (proxies σ) (hashStore σ) (xids σ).
Definition setHost (w : ResponseWriter) (σ : World) : World :=
  mkWorld (loggers σ) (reqHeader σ) w (proxies σ) (hashStore σ) (xids σ).
Definition setProxies (ps : list RespProxyWriter) (σ : World) : World :=
  mkWorld (loggers σ) (reqHeader σ) (host σ) ps (hashStore σ) (xids σ).
Definition setHashStore (s : option (list string)) (σ : World) : World :=
  mkWorld (loggers σ) (reqHeader σ) (host σ) (proxies σ) s (xids σ).
Definition setXids (n : nat) (σ : World) : World :=
  mkWorld (loggers σ) (reqHeader σ) (host σ) (proxies σ) (hashStore σ) n.

(** [caddyhttp.Handler]: [ServeHTTP(w, r) error]. *)
Definition Handler := Writer → Request → World → World * option string.

(** A stage, [func(caddyhttp.Handler) caddyhttp.Handler]. *)
Definition Stage := Handler → Handler.

(** *** The response-capturing proxy *)

(** Modelled from the spec: a proxy that has captured nothing; the status
    is 200 until [WriteHeader] is called. *)
Definition newProxy : RespProxyWriter := mkProxy 200 false "" ∅ false [].

(** Modelled from the spec: [NewRespProxyWriter]. Wrapping a writer that is
    already a proxy hands back that proxy; any other writer gets a new
    proxy with nothing captured yet and status 200. *)
Definition NewRespProxyWriter (w : Writer) (σ : World) : nat * World :=
  match w with
  | WProxy p => (p, σ)
  | WHost => (length (proxies σ), setProxies (proxies σ ++ [newProxy])%list σ)
  end.

(** A method of the proxy [p] acts on the proxy and on the writer it
    wraps. *)
Definition withProxy (p : nat)
    (method : RespProxyWriter * ResponseWriter → RespProxyWriter * ResponseWriter)
    (σ : World) : World :=
  match proxies σ !! p with
  | Some x =>
      let '(x', h') := method (x, host σ) in
      setHost h' (setProxies (<[p := x']> (proxies σ)) σ)
  | None => σ
  end.

(** Modelled from the spec: [delHeader] notes the name; the deletion is
    applied to the real writer's headers before they are sent. *)
Definition delHeader (headerName : string) (xh : RespProxyWriter * ResponseWriter)
  : RespProxyWriter * ResponseWriter :=
  let '(x, h) := xh in
  (mkProxy (Code x) (wroteHeader x) (Body x) (SourceHeader x) (flushed x)
           (headerName :: delHeaders x), h).

(** Modelled from the spec: before the first bytes go to the real writer
    the proxy copies the staged headers into [SourceHeader] and deletes the
    noted names from the real writer's header map. *)
Definition flushHeaders (xh : RespProxyWriter * ResponseWriter)
  : RespProxyWriter * ResponseWriter :=
  let '(x, h) := xh in
  if flushed x then (x, h)
  else (mkProxy (Code x) (wroteHeader x) (Body x) (rwHeader h) true (delHeaders x),
        rwSetHeader (foldr (fun k hd => HDel hd k) (rwHeader h) (delHeaders x)) h).

(** Modelled from the spec: [WriteHeader(code)] records the code once, the
    first call winning, and forwards to the real writer. *)
Definition proxyWriteHeader (code : Z) (xh : RespProxyWriter * ResponseWriter)
  : RespProxyWriter * ResponseWriter :=
  let '(x, h) := flushHeaders xh in
  (if wroteHeader x then x
   else mkProxy code true (Body x) (SourceHeader x) (flushed x) (delHeaders x),
   rwWriteHeader code h).

(** Modelled from the spec: [Write(bytes)] appends to the buffer and
    forwards the same bytes to the real writer. *)
Definition proxyWrite (b : string) (xh : RespProxyWriter * ResponseWriter)
  : RespProxyWriter * ResponseWriter :=
  let '(x, h) := flushHeaders xh in
  (mkProxy (Code x) (wroteHeader x) (Body x +:+ b) (SourceHeader x) (flushed x)
           (delHeaders x),
   rwWrite b h).

(** *** What a handler can do with the writer it is given *)

(** [w.Header()] is the host's header map, also through the proxy. *)
Definition wHeader (f : Header → Header) (σ : World) : World :=
  setHost (rwSetHeader (f (rwHeader (host σ))) (host σ)) σ.

Definition wWriteHeader (w : Writer) (code : Z) (σ : World) : World :=
  match w with
  | WHost => setHost (rwWriteHeader code (host σ)) σ
  | WProxy p => withProxy p (proxyWriteHeader code) σ
  end.

Definition wWrite (w : Writer) (b : string) (σ : World) : World :=
  match w with
  | WHost => setHost (rwWrite b (host σ)) σ
  | WProxy p => withProxy p (proxyWrite b) σ
  end.

(** The calls of a downstream handler on its writer, in order. *)
Inductive Op :=
| OSet (key value : string)
| OAdd (key value : string)
| ODel (key : string)
| OWriteHeader (code : Z)
| OWrite (b : string).

Definition runOp (w : Writer) (σ : World) (op : Op) : World :=
  match op with
  | OSet k v => wHeader (fun h => HSet h k v) σ
  | OAdd k v => wHeader (fun h => HAdd h k v) σ
  | ODel k => wHeader (fun h => HDel h k) σ
  | OWriteHeader code => wWriteHeader w code σ
  | OWrite b => wWrite w b σ
  end.

(** A final handler that makes the calls [ops] and returns [err]. *)
Definition respond (ops : list Op) (err : option string) : Handler :=
  fun w _ σ => (fold_left (runOp w) ops σ, err).

(** The [Write] arguments and the [WriteHeader] arguments among [ops]. *)
Definition writesOf (ops : list Op) : list string :=
  omap (fun op => match op with OWrite b => Some b | _ => None end) ops.

Definition codesOf (ops : list Op) : list Z :=
  omap (fun op => match op with OWriteHeader c => Some c | _ => None end) ops.

(** *** The chain *)

(** Modelled from the spec: [Chain] with [NewChain], [Append] and [Then]
    (its file is not among the sources): an ordered sequence of stages;
    [Append] adds at the tail; [Then h] is stage 1's wrapper around
    (stage 2's wrapper around (... around [h])). *)
Record Chain := mkChain { stages : list Stage }.

(** Modelled from the spec: [NewChain], the chain with no stage. *)
Definition NewChain : Chain := mkChain [].

(** Modelled from the spec: [Append] returns a new chain with the stage
    added at the tail. *)
Definition Append (c : Chain) (s : Stage) : Chain := mkChain (stages c ++ [s])%list.

(** Modelled from the spec: [Then] wraps the final handler in the stages,
    the first stage outermost. *)
Definition Then (c : Chain) (h : Handler) : Handler :=
  foldr (fun s next => s next) h (stages c).

(** A stage with code before and after the delegation, and nothing else. *)
Definition around (pre post : World → World) : Stage :=
  fun next w r σ =>
    let '(σ', err) := next w r (pre σ) in (post σ', err).

(** *** The stages of [handler.go] *)

(** [log.UpdateContext(update)] with [log := zerolog.Ctx(r.Context())]. *)
Definition UpdateContext (r : Request) (update : Context → Context) (σ : World) : World :=
  setLoggers (updateContext (ctxLogger r) update (loggers σ)) σ.

(** [NewHandler]: a copy of the logger is made for the request and put in
    its context. *)
Definition NewHandler (log : Context) : Stage :=
  fun next w r σ =>
    let '(l, ls) := install log (loggers σ) in
    next w (mkRequest (Method r) (RequestURI r) (RemoteAddr r) (Some l)) (setLoggers ls σ).

(** [HeaderHandler]. *)
Definition HeaderHandler (headerName : string) : Stage :=
  fun next w r σ =>
    let v := HGet (reqHeader σ) headerName in
    next w r (if String.eqb v "" then σ else UpdateContext r (Str headerName v) σ).

(** [DelResponseHeaderHandler]. *)
Definition DelResponseHeaderHandler (headerName : string) : Stage :=
  fun next w r σ =>
    let '(nw, σ1) := NewRespProxyWriter w σ in
    next (WProxy nw) r (withProxy nw (delHeader headerName) σ1).

(** The proxy [nw] as a handler finds it after the delegation. *)
Definition proxyAt (nw : nat) (σ : World) : RespProxyWriter :=
  default newProxy (proxies σ !! nw).

Section Stages.

(** Functions of other packages, taken as they come. *)
Variable MD5 : string → string.                       (* [goutil.MD5] *)
Variable JSONMarshal : gmap string string → string.   (* [goutil.JSONMarshal] of a [map[string]string] *)
Variable rangeKeys : list string → list string.       (* the order in which [range] visits the keys of a map *)
Variable DumpRequest : Request → Header → string + string. (* [httputil.DumpRequest(r, true)]: the text, or the error's text *)
Variable WriteSubset : Header → string.               (* [Header.WriteSubset(&b, nil)] *)
Variable DumpResponse : ResponseLog → string.         (* [ResponseLog{...}.DumpResponse()] *)
Variable ParseFloat : string → option float.          (* [strconv.ParseFloat(v, 64)] *)
Variable ID : Type.                                   (* [xid.ID] *)
Variable xidFromString : string → option ID.          (* [xid.FromString] *)
Variable xidString : ID → string.                     (* [ID.String] *)
Variable xidNew : nat → ID.                           (* [xid.New], from the generator's state *)

(** The object [map[string]string{"field": k, "md5": md5, "content": v}]. *)
Definition redactionEntry (k md5 v : string) : gmap string string :=
  {[ "field" := k; "md5" := md5; "content" := v ]}.

(** The body of the loop of [hashPostRequest] for the key [k]. *)
Definition redactField (postData : Values) (st : Values * option (list string)) (k : string)
  : Values * option (list string) :=
  let '(urlVal, store) := st in
  let v := Get postData k in
  if (1000 <? String.length v)%nat then
    let md5 := MD5 v in
    (Set_ urlVal ("md5-" +:+ k) md5,
     match store with
     | Some lines => Some (lines ++ [JSONMarshal (redactionEntry k md5 v)])%list
     | None => None
     end)
  else (Set_ urlVal k v, store).

(** [hashPostRequest], with [c.hashStore] passed in and out. *)
Definition hashPostRequest (store : option (list string)) (req : string)
  : string * option (list string) :=
  match Split req CRLFCRLF with
  | [head; body] =>
      match ParseQuery body with
      | (postData, None) =>
          let '(urlVal, store') :=
            fold_left (redactField postData) (rangeKeys (map_to_list postData).*1) (∅, store) in
          (head +:+ CRLFCRLF +:+ Encode urlVal, store')
      | (_, Some _) => (req, store)
      end
  | _ => (req, store)
  end.

(** The message computed in the closure of [DumpRequestHandler]. *)
Definition dumpRequestMsg (store : option (list string)) (dump : string + string)
  : string * option (list string) :=
  match dump with
  | inr err => (err, store)
  | inl res =>
      match store with
      | None => (res, store)
      | Some _ => hashPostRequest store res
      end
  end.

(** [DumpRequestHandler]: the closure runs only when the context holds a
    logger. *)
Definition DumpRequestHandler (fieldKey : string) : Stage :=
  fun next w r σ =>
    match ctxLogger r with
    | None => next w r σ
    | Some _ =>
        let '(msg, store) := dumpRequestMsg (hashStore σ) (DumpRequest r (reqHeader σ)) in
        next w r (UpdateContext r (Str fieldKey msg) (setHashStore store σ))
    end.

(** [IDFromRequest] for a non-nil request. *)
Definition IDFromRequest (σ : World) (headerName : string) : option ID :=
  xidFromString (HGet (reqHeader σ) headerName).

(** The id [RequestIDHandler] settles on, and the generator's next state. *)
Definition resolveID (σ : World) (headerName : string) : ID * nat :=
  match IDFromRequest σ headerName with
  | Some id => (id, xids σ)
  | None => (xidNew (xids σ), S (xids σ))
  end.

(** [RequestIDHandler]. *)
Definition RequestIDHandler (fieldKey headerName : string) : Stage :=
  fun next w r σ =>
    let '(id, n) := resolveID σ headerName in
    let σ1 := setXids n σ in
    let σ2 := if String.eqb fieldKey "" then σ1
              else UpdateContext r (Str fieldKey (xidString id)) σ1 in
    let σ3 := if String.eqb headerName "" then σ2
              else setReqHeader (HSet (reqHeader σ2) headerName (xidString id)) σ2 in
    next w r σ3.

(** [DumpResponseHandler]. *)
Definition DumpResponseHandler (fieldKey : string) : Stage :=
  fun next w r σ =>
    let '(nw, σ1) := NewRespProxyWriter w σ in
    let '(σ2, err) := next (WProxy nw) r σ1 in
    let x := proxyAt nw σ2 in
    let b := WriteSubset (SourceHeader x) in
    (UpdateContext r
       (Str fieldKey (DumpResponse (mkResponseLog r (Code x) (Body x) b))) σ2,
     err).

(** The closure of [ResponseHeaderHandler]: the field logged for the
    header value [v]. *)
Definition typedField (headerName valType v : string) (c : Context) : Context :=
  if String.eqb valType "bool" then
    match ParseBool v with Some val => Bool headerName val c | None => Str headerName v c end
  else if String.eqb valType "float" then
    match ParseFloat v with Some val => Float64 headerName val c | None => Str headerName v c end
  else if String.eqb valType "int" then
    match ParseInt v with Some val => Int64 headerName val c | None => Str headerName v c end
  else if String.eqb valType "uint" then
    match ParseUint v with Some val => Uint64 headerName val c | None => Str headerName v c end
  else Str headerName v c.

(** [ResponseHeaderHandler]. *)
Definition ResponseHeaderHandler (headerName valType : string) : Stage :=
  fun next w r σ =>
    let '(nw, σ1) := NewRespProxyWriter w σ in
    let '(σ2, err) := next (WProxy nw) r σ1 in
    let v := HGet (SourceHeader (proxyAt nw σ2)) headerName in
    (if String.eqb v "" then σ2 else UpdateContext r (typedField headerName valType v) σ2,
     err).

(** The stages [zlog.go] appends from [HeaderHandler("X-Forwarded-For")]
    on, in its order. [AccessHandler], which hands on a metering writer
    that forwards every call and reads the wall clock, and
    [RemoteAddrHandler] come before them and are not modelled. *)
Definition zlogStages : list Stage :=
  [ HeaderHandler "X-Forwarded-For";
    HeaderHandler "User-Agent";
    HeaderHandler "Referer";
    RequestIDHandler "req_id" "Request-Id";
    DelResponseHeaderHandler "Cost";
    ResponseHeaderHandler "Cost" "float";
    DumpResponseHandler "response";
    DumpRequestHandler "request" ].

Definition zlogChain (log : Context) : Chain :=
  fold_left Append zlogStages (Append NewChain (NewHandler log)).

End Stages.

End Zlog.

(** ** The field stages of [handler.go] that [zlog.go] does not install *)

Module Enrich.
Import GoStrings HTTP Zerolog Zlog.

Section EnrichStages.

(** Functions of other packages, taken as they come. *)
Variable URLString : Request → string.                    (* [r.URL.String()] *)
Variable SplitHostPort : string → option (string * string). (* [net.SplitHostPort]: host and port, or an error *)

(** [FromRequest]: the logger in the request's context. *)
Definition FromRequest (r : Request) : option nat := ctxLogger r.

(** [URLHandler]. *)
Definition URLHandler (fieldKey : string) : Stage :=
  fun next w r σ => next w r (UpdateContext r (Str fieldKey (URLString r)) σ).

(** [MethodHandler]. *)
Definition MethodHandler (fieldKey : string) : Stage :=
  fun next w r σ => next w r (UpdateContext r (Str fieldKey (Method r)) σ).

(** [RequestHandler]. *)
Definition RequestHandler (fieldKey : string) : Stage :=
  fun next w r σ =>
    next w r (UpdateContext r (Str fieldKey (Method r +:+ " " +:+ URLString r)) σ).

(** [RemoteAddrHandler]. *)
Definition RemoteAddrHandler (fieldKey : string) : Stage :=
  fun next w r σ =>
    match SplitHostPort (RemoteAddr r) with
    | Some (host, _) => next w r (UpdateContext r (Str fieldKey host) σ)
    | None => next w r σ
    end.

(** [UserAgentHandler]. *)
Definition UserAgentHandler (fieldKey : string) : Stage :=
  fun next w r σ =>
    let ua := HGet (reqHeader σ) "User-Agent" in
    next w r (if String.eqb ua "" then σ else UpdateContext r (Str fieldKey ua) σ).

(** [RefererHandler]. *)
Definition RefererHandler (fieldKey : string) : Stage :=
  fun next w r σ =>
    let ref := HGet (reqHeader σ) "Referer" in
    next w r (if String.eqb ref "" then σ else UpdateContext r (Str fieldKey ref) σ).

End EnrichStages.

End Enrich.

(** ** The module's configuration: [zlog.go] *)

Module Config.
Import Zlog.

(** [Middleware]. *)
Record Middleware := mkMiddleware {
  LogDir : string;
  SplitBy : string;
  HashDir : string
}.

Section Setup.

(** Functions of other packages, taken as they come. *)
Variable besideExe : string → string.           (* [filepath.Join(filepath.Dir(os.Args[0]), name)] *)
Variable NewFileStorePro : string → string → option string.  (* the error of [filestore.NewFileStorePro(dir, splitBy)], if any *)

(** [Provision]: the receiver as it is left; the error returned is always
    nil. *)
Definition Provision (m : Middleware) : Middleware :=
  let logDir := if String.eqb (LogDir m) "" then besideExe "zerolog" else LogDir m in
  let splitBy := if String.eqb (SplitBy m) "" then "day" else SplitBy m in
  let hashDir := if String.eqb (HashDir m) "on" then besideExe "hashdata" else HashDir m in
  mkMiddleware logDir splitBy hashDir.

(** [Validate]: the error's text, or [None] for nil. *)
Definition Validate (m : Middleware) : option string :=
  if negb (String.eqb (SplitBy m) "day") && negb (String.eqb (SplitBy m) "hour")
  then Some "zlog split_by must be day or hour"
  else None.

(** The block of [ServeHTTP] that opens the hash file store, on
    [c.hashStore] as the chain built so far has it: a store that opens
    starts with no line written. *)
Definition initHashStore (m : Middleware) (hashStore : option (list string))
  : option (list string) :=
  if negb (String.eqb (HashDir m) "") then
    match NewFileStorePro (HashDir m) (SplitBy m) with
    | None => Some []
    | Some _ => None
    end
  else hashStore.

End Setup.

End Config.

(** * Terms in which the properties are stated *)

Import GoStrings URL Strconv HTTP Zerolog Zlog.

(** ** The redactor, field by field *)

Module Redaction.

Section Fields.

Variable MD5 : string → string.
Variable rangeKeys : list string → list string.
Variable postData : Values.

(** The test [len(v) > 1000] on the first value of the key [k]. *)
Definition oversized (k : string) : bool := (1000 <? String.length (Get postData k))%nat.

(** Where the loop puts the field [k], and what it puts there. *)
Definition target (k : string) : string := if oversized k then "md5-" +:+ k else k.

Definition payload (k : string) : string :=
  if oversized k then MD5 (Get postData k) else Get postData k.

Definition entryOf (k : string) : gmap string string :=
  redactionEntry k (MD5 (Get postData k)) (Get postData k).

(** The keys in the order the loop visits them, and the maps it builds. *)
Definition visited : list string := rangeKeys (map_to_list postData).*1.

Definition redacted : Values :=
  fold_left (fun m k => Set_ m (target k) (payload k)) visited ∅.

Definition entries : list (gmap string string) :=
  entryOf <$> filter (fun k => oversized k = true) visited.

(** No field is named [md5-j] for an oversized field [j]. *)
Definition noClash : Prop :=
  ∀ j, is_Some (postData !! j) → oversized j = true → postData !! ("md5-" +:+ j) = None.

End Fields.

End Redaction.

(** ** The proxy and the writer it wraps, as a pair *)


(** All the byte slices of a list, one after the other. *)
Definition concatAll (bs : list string) : string := foldr String.append "" bs.

(** One call of a handler that holds the proxy, on the proxy and the
    writer it wraps. *)
Definition stepPair (xh : RespProxyWriter * ResponseWriter) (op : Op)
  : RespProxyWriter * ResponseWriter :=
  match op with
  | OSet k v => (xh.1, rwSetHeader (HSet (rwHeader xh.2) k v) xh.2)
  | OAdd k v => (xh.1, rwSetHeader (HAdd (rwHeader xh.2) k v) xh.2)
  | ODel k => (xh.1, rwSetHeader (HDel (rwHeader xh.2) k) xh.2)
  | OWriteHeader code => proxyWriteHeader code xh
  | OWrite b => proxyWrite b xh
  end.

(** [σ] with the proxy [p] and the host's writer replaced. *)
Definition putPair (p : nat) (xh : RespProxyWriter * ResponseWriter) (σ : World) : World :=
  setHost xh.2 (setProxies (<[p := xh.1]> (proxies σ)) σ).




(** ** The kinds of the typed-header stage *)

(** The kinds the stage is configured with, and the native value a header
    value parses to as a kind. *)
Inductive Kind := KBool | KInt | KUint | KFloat | KStr.

Definition kindName (k : Kind) : string :=
  match k with
  | KBool => "bool" | KInt => "int" | KUint => "uint" | KFloat => "float" | KStr => "str"
  end.

Definition parseAs (ParseFloat : string → option float) (k : Kind) (v : string)
  : option FieldValue :=
  match k with
  | KBool => VBool <$> ParseBool v
  | KInt => VInt64 <$> ParseInt v
  | KUint => VUint64 <$> ParseUint v
  | KFloat => VFloat64 <$> ParseFloat v
  | KStr => Some (VStr v)
  end.

(** ** Inputs to run the stages on *)

(** Stand-ins for the functions of other packages, to run the stages on
    concrete inputs. *)
Module Sample.

Definition MD5 (s : string) : string := "0cc175b9c0f1b6a831c399e269772661".

Definition JSONMarshal (m : gmap string string) : string :=
  Join ((fun kv => kv.1 +:+ "=" +:+ kv.2) <$> map_to_list m) ",".

Definition rangeKeys (l : list string) : list string := reverse l.

(** A form value of 1001 bytes, and a request dump whose body holds it. *)
Definition bigValue : string := Repeat "a" 1001.

Definition bigHead : string :=
  "POST /submit HTTP/1.1" +:+ String CR (String LF "Host: example.com").

Definition bigDump : string := bigHead +:+ CRLFCRLF +:+ "k=" +:+ bigValue.

(** A dump with small fields only: keys out of order, a repeated key, an
    escape that need not be one. *)
Definition smallDump : string :=
  "POST /f HTTP/1.1" +:+ CRLFCRLF +:+ "b=x%7Ey&a=1&a=3".

(** A request dump: the request line, the id header, and a form with a
    small field and one of 1001 bytes. *)
Definition dumpHead (r : Request) (h : Header) : string :=
  Method r +:+ " " +:+ RequestURI r +:+ " HTTP/1.1"
  +:+ String CR (String LF ("Request-Id: " +:+ HGet h "Request-Id")).

Definition DumpRequest (r : Request) (h : Header) : string + string :=
  inl (dumpHead r h +:+ CRLFCRLF +:+ "a=1&b=" +:+ bigValue).

Definition WriteSubset (h : Header) : string :=
  Join ((fun kv => kv.1 +:+ ": " +:+ Join kv.2 ",") <$> map_to_list h) ";".

Definition DumpResponse (l : ResponseLog) : string := logBody l +:+ "|" +:+ logHeader l.

Definition ParseFloat (s : string) : option float :=
  if String.eqb s "0.25" then Some 0.25%float else None.

End Sample.

(** A stand-in for [xid]: an id is its 20-byte text. *)
Module SampleXid.

Definition FromString (s : string) : option string :=
  if (String.length s =? 20)%nat then Some s else None.

Definition String_ (id : string) : string := id.

Definition New (n : nat) : string := "9m4e2mr0ui3e8a215n4g".

End SampleXid.

(** A request with nothing in its context, and a world in which nothing
    has happened yet. *)
Definition emptyRequest : Request := mkRequest "GET" "/" "192.0.2.1:4000" None.

Definition emptyWorld : World := mkWorld [] ∅ (mkRW ∅ None "") [] None 0.

(** A world with a request header set and an open, empty redaction store. *)
Definition storeWorld : World :=
  mkWorld [] {[ "User-Agent" := ["curl"] ]} (mkRW ∅ None "") [] (Some []) 0.

Definition baseLogger : Context := [("service", VStr "caddy")].

(** A request whose context holds the logger in cell 0, and a world with
    that logger, a request header and no redaction store. *)
Definition loggedRequest : Request := mkRequest "GET" "/" "192.0.2.1:4000" (Some 0).

Definition loggedWorld : World :=
  mkWorld [baseLogger] {[ "User-Agent" := ["curl"] ]} (mkRW ∅ None "") [] None 0.

Import Enrich Config.

(** ** Bytes with a meaning in a query *)

(** The separators of [parseQuery], and the carriage return of the blank
    line. *)
Definition structural (x : ascii) : Prop :=
  x = "&"%char ∨ x = "="%char ∨ x = ";"%char ∨ x = CR.

(** ** Header names *)

(** The byte [canonicalLoop] writes for [c]. *)
Definition canonicalByte (upper : bool) (c : ascii) : ascii :=
  if upper && between "a" "z" c then ascii_of_N (N_of_ascii c - 32)%N
  else if negb upper && between "A" "Z" c then ascii_of_N (N_of_ascii c + 32)%N
  else c.

(** ** Stages and what they leave alone *)

(** The field logged for a value read off the request: none when the
    value is empty. *)
Definition present (key val : string) : Context :=
  if String.eqb val "" then [] else [(key, VStr val)].

(** The stages of [handler.go] that add a field read off the request,
    each with the fields it adds for a request and its headers. *)
Inductive enriches (URLString : Request → string)
    (SplitHostPort : string → option (string * string))
  : Stage → (Request → Header → Context) → Prop :=
| enrich_URL k :
    enriches URLString SplitHostPort (URLHandler URLString k)
      (fun r _ => [(k, VStr (URLString r))])
| enrich_Method k :
    enriches URLString SplitHostPort (MethodHandler k)
      (fun r _ => [(k, VStr (Method r))])
| enrich_Request k :
    enriches URLString SplitHostPort (RequestHandler URLString k)
      (fun r _ => [(k, VStr (Method r +:+ " " +:+ URLString r))])
| enrich_RemoteAddr k :
    enriches URLString SplitHostPort (RemoteAddrHandler SplitHostPort k)
      (fun r _ => match SplitHostPort (RemoteAddr r) with
                  | Some (host, _) => [(k, VStr host)]
                  | None => []
                  end)
| enrich_UserAgent k :
    enriches URLString SplitHostPort (UserAgentHandler k)
      (fun _ h => present k (HGet h "User-Agent"))
| enrich_Referer k :
    enriches URLString SplitHostPort (RefererHandler k)
      (fun _ h => present k (HGet h "Referer"))
| enrich_Header name :
    enriches URLString SplitHostPort (HeaderHandler name)
      (fun _ h => present name (HGet h name)).

(** The fields a list of such stages adds, first stage first. *)
Definition fieldsOf (flds : list (Request → Header → Context)) (r : Request) (h : Header)
  : Context :=
  concat ((fun f => f r h) <$> flds).

(** Two worlds that differ in the loggers at most. *)
Definition sameButLoggers (σ σ' : World) : Prop :=
  reqHeader σ = reqHeader σ' ∧ host σ = host σ' ∧ proxies σ = proxies σ'
  ∧ hashStore σ = hashStore σ' ∧ xids σ = xids σ'.

Definition isProxy (w : Writer) : Prop := ∃ p, w = WProxy p.

(** A stage that, given a writer in [P], calls the handler it wraps once,
    with a writer in [Q] and a request and a world that do not depend on
    that handler, returns its error, and afterwards changes the loggers at
    most. *)
Definition passes (P Q : Writer → Prop) (s : Stage) : Prop :=
  ∀ w r σ, P w → ∃ w' r' σ', Q w' ∧
    ∀ next, (s next w r σ).2 = (next w' r' σ').2
            ∧ sameButLoggers (s next w r σ).1 (next w' r' σ').1.

(** A handler that appends fields to the logger of its request and leaves
    the other loggers alone: the keys appended are among [K], in that
    order, and those of [M] are there. *)
Definition logsFields (K M : list string) (h : Handler) : Prop :=
  ∀ w r σ l c, ctxLogger r = Some l → loggers σ !! l = Some c →
    ∃ fields, loggers (h w r σ).1 = <[l := (c ++ fields)%list]> (loggers σ)
              ∧ sublist fields.*1 K ∧ Forall (fun k => k ∈ fields.*1) M.

(** ** The chain as [ServeHTTP] builds it *)

(** The stages of [ServeHTTP] with [RemoteAddrHandler] in its place, after
    [NewHandler]: of the stages [zlog.go] appends, [AccessHandler] alone
    is missing. *)
Definition servedChain (SplitHostPort : string → option (string * string))
    (MD5 : string → string) (JSONMarshal : gmap string string → string)
    (rangeKeys : list string → list string)
    (DumpRequest : Request → Header → string + string)
    (WriteSubset : Header → string) (DumpResponse : ResponseLog → string)
    (ParseFloat : string → option float) (ID : Type)
    (xidFromString : string → option ID) (xidString : ID → string) (xidNew : nat → ID)
    (log : Context) : Chain :=
  fold_left Append
    (RemoteAddrHandler SplitHostPort "server"
     :: zlogStages MD5 JSONMarshal rangeKeys DumpRequest WriteSubset DumpResponse
          ParseFloat ID xidFromString xidString xidNew)
    (Append NewChain (NewHandler log)).

(** Stand-ins to run the field stages and the set-up on. *)
Module SampleSetup.

Definition URLString (r : Request) : string := RequestURI r.

Definition SplitHostPort (s : string) : option (string * string) :=
  let '(host, port, found) := Cut s ":" in
  if found then Some (host, port) else None.

Definition besideExe (name : string) : string := "/usr/bin/" +:+ name.

(** A store that opens nowhere. *)
Definition NewFileStorePro (dir splitBy : string) : option string :=
  Some "permission denied".

(** A stand-in for [xid] with two ids, each read back from its text. *)
Definition idText (id : bool) : string :=
  if id then "9m4e2mr0ui3e8a215n4g" else "9m4e2mr0ui3e8a215n50".

Definition idFromString (s : string) : option bool :=
  if String.eqb s (idText true) then Some true
  else if String.eqb s (idText false) then Some false
  else None.

Definition idNew (n : nat) : bool := Nat.even n.

End SampleSetup.

(** ** Requests side by side *)

Module Isolation.

(** A stage of the chain, with the arguments it calls the next handler
    with. *)
Record CutStage := mkCutStage {
  stage : Stage;
  calls : Writer → Request → World → Writer * Request * World
}.

(** What the stage does once the next handler has returned and left the
    world [σ2]: the stage itself, run around a handler that returns [σ2]
    at once. *)
Definition after (c : CutStage) (w : Writer) (r : Request) (σ σ2 : World) : World :=
  (stage c (fun _ _ _ => (σ2, None)) w r σ).1.


Section Cuts.

Variable SplitHostPort : string → option (string * string).
Variable MD5 : string → string.
Variable JSONMarshal : gmap string string → string.
Variable rangeKeys : list string → list string.
Variable DumpRequest : Request → Header → string + string.
Variable WriteSubset : Header → string.
Variable DumpResponse : ResponseLog → string.
Variable ParseFloat : string → option float.
Variable ID : Type.
Variable xidFromString : string → option ID.
Variable xidString : ID → string.
Variable xidNew : nat → ID.

(** The stages of the chain of [ServeHTTP], each cut at its call of
    [next.ServeHTTP]. *)
Definition cutNewHandler (log : Context) : CutStage :=
  mkCutStage (NewHandler log)
    (fun w r σ =>
       let '(l, ls) := install log (loggers σ) in
       (w, mkRequest (Method r) (RequestURI r) (RemoteAddr r) (Some l), setLoggers ls σ)).

Definition cutRemoteAddrHandler (fieldKey : string) : CutStage :=
  mkCutStage (RemoteAddrHandler SplitHostPort fieldKey)
    (fun w r σ =>
       (w, r, match SplitHostPort (RemoteAddr r) with
              | Some (host, _) => UpdateContext r (Str fieldKey host) σ
              | None => σ
              end)).

Definition cutHeaderHandler (headerName : string) : CutStage :=
  mkCutStage (HeaderHandler headerName)
    (fun w r σ =>
       let v := HGet (reqHeader σ) headerName in
       (w, r, if String.eqb v "" then σ else UpdateContext r (Str headerName v) σ)).

Definition cutRequestIDHandler (fieldKey headerName : string) : CutStage :=
  mkCutStage (RequestIDHandler ID xidFromString xidString xidNew fieldKey headerName)
    (fun w r σ =>
       let '(id, n) := resolveID ID xidFromString xidNew σ headerName in
       let σ1 := setXids n σ in
       let σ2 := if String.eqb fieldKey "" then σ1
                 else UpdateContext r (Str fieldKey (xidString id)) σ1 in
       let σ3 := if String.eqb headerName "" then σ2
                 else setReqHeader (HSet (reqHeader σ2) headerName (xidString id)) σ2 in
       (w, r, σ3)).

Definition cutDelResponseHeaderHandler (headerName : string) : CutStage :=
  mkCutStage (DelResponseHeaderHandler headerName)
    (fun w r σ =>
       let '(nw, σ1) := NewRespProxyWriter w σ in
       (WProxy nw, r, withProxy nw (delHeader headerName) σ1)).

Definition cutResponseHeaderHandler (headerName valType : string) : CutStage :=
  mkCutStage (ResponseHeaderHandler ParseFloat headerName valType)
    (fun w r σ => let '(nw, σ1) := NewRespProxyWriter w σ in (WProxy nw, r, σ1)).

Definition cutDumpResponseHandler (fieldKey : string) : CutStage :=
  mkCutStage (DumpResponseHandler WriteSubset DumpResponse fieldKey)
    (fun w r σ => let '(nw, σ1) := NewRespProxyWriter w σ in (WProxy nw, r, σ1)).

Definition cutDumpRequestHandler (fieldKey : string) : CutStage :=
  mkCutStage (DumpRequestHandler MD5 JSONMarshal rangeKeys DumpRequest fieldKey)
    (fun w r σ =>
       match ctxLogger r with
       | None => (w, r, σ)
       | Some _ =>
           let '(msg, store) :=
             dumpRequestMsg MD5 JSONMarshal rangeKeys (hashStore σ)
               (DumpRequest r (reqHeader σ)) in
           (w, r, UpdateContext r (Str fieldKey msg) (setHashStore store σ))
       end).

(** The stages after [NewHandler], in the order of [ServeHTTP]
    ([AccessHandler] left out). *)
Definition servedRest : list CutStage :=
  [ cutRemoteAddrHandler "server";
    cutHeaderHandler "X-Forwarded-For";
    cutHeaderHandler "User-Agent";
    cutHeaderHandler "Referer";
    cutRequestIDHandler "req_id" "Request-Id";
    cutDelResponseHeaderHandler "Cost";
    cutResponseHeaderHandler "Cost" "float";
    cutDumpResponseHandler "response";
    cutDumpRequestHandler "request" ].

Definition servedCuts (log : Context) : list CutStage := cutNewHandler log :: servedRest.

End Cuts.

(** A request in flight: the writer and the request its next stage is
    called with, the world of its own (request headers, response writer,
    proxies; the loggers are those of the shared heap, and the id
    generator and the hash store, which hold no logger, are taken per
    request), the stages not yet entered, the final handler while it has
    not run, and the code after the delegation of the stages entered, the
    innermost first. *)
Record Thread := mkThread {
  writer : Writer;
  request : Request;
  own : World;
  todo : list CutStage;
  final : option Handler;
  pending : list (World → World)
}.

(** The heap of loggers, which the requests share, and the requests. *)
Record State := mkState {
  heap : Loggers;
  threads : list Thread
}.

(** The next step of one request: it enters its next stage, up to the
    call of the next handler; or runs its final handler; or returns into
    the innermost stage entered and runs the code after its delegation. *)
Definition stepThread (ls : Loggers) (t : Thread) : Loggers * Thread :=
  let σ := setLoggers ls (own t) in
  match todo t with
  | c :: rest =>
      let '(w', r', σ') := calls c (writer t) (request t) σ in
      (loggers σ',
       mkThread w' r' σ' rest (final t) (after c (writer t) (request t) σ :: pending t))
  | [] =>
      match final t with
      | Some h =>
          let σ' := (h (writer t) (request t) σ).1 in
          (loggers σ', mkThread (writer t) (request t) σ' [] None (pending t))
      | None =>
          match pending t with
          | post :: ps =>
              let σ' := post σ in
              (loggers σ', mkThread (writer t) (request t) σ' [] None ps)
          | [] => (ls, t)
          end
      end
  end.

(** Request [i] takes its next step. *)
Definition step (s : State) (i : nat) : State :=
  match threads s !! i with
  | None => s
  | Some t =>
      let '(ls', t') := stepThread (heap s) t in
      mkState ls' (<[i := t']> (threads s))
  end.

(** A schedule names the request that moves, step after step. *)
Definition run (sched : list nat) (s : State) : State := fold_left step sched s.

(** What comes in with a request: the request, the world of its own, and
    the calls its final handler makes on the writer with the error it
    returns. *)
Record Client := mkClient {
  creq : Request;
  cworld : World;
  cops : list Op;
  cerr : option string
}.

Definition enter (prog : list CutStage) (q : Client) : Thread :=
  mkThread WHost (creq q) (cworld q) prog (Some (respond (cops q) (cerr q))) [].

Definition start (ls : Loggers) (prog : list CutStage) (clients : list Client) : State :=
  mkState ls (enter prog <$> clients).


(** The request handled on its own: the chain of the stages around its
    final handler, run in one go on a heap of [l] empty loggers that
    nobody else touches. *)
Definition alone (prog : list CutStage) (q : Client) (l : nat) : World :=
  (Then (mkChain (stage <$> prog)) (respond (cops q) (cerr q)) WHost (creq q)
        (setLoggers (replicate l []) (cworld q))).1.

End Isolation.

Import Isolation.


(** From [ls] to [ls'] no cell but [l] has changed. *)
Definition changesOnly (l : nat) (ls ls' : Loggers) : Prop :=
  length ls' = length ls ∧ ∀ k, k ≠ l → ls' !! k = ls !! k.





(** The world a request in flight ends with when it goes on alone. *)
Definition value (p : Loggers * Thread) : World :=
  let σ := setLoggers p.1 (own p.2) in
  fold_left (fun σ post => post σ) (pending p.2)
    (match final p.2 with
     | Some h => (Then (mkChain (stage <$> todo p.2)) h (writer p.2) (request p.2) σ).1
     | None => σ
     end).




(** Two clients and a schedule on which their requests take turns. *)
Module SampleClients.

Definition clientA : Client :=
  mkClient (mkRequest "GET" "/a" "192.0.2.1:4000" None)
    (mkWorld [] {[ "User-Agent" := ["curl"] ]} (mkRW ∅ None "") [] (Some []) 0)
    [OSet "Cost" "0.25"; OWrite "ok"] None.

Definition clientB : Client :=
  mkClient (mkRequest "POST" "/b" "198.51.100.7:5000" None)
    (mkWorld [] {[ "Referer" := ["http://example.org/"] ]} (mkRW ∅ None "") [] (Some []) 0)
    [OWriteHeader 404; OWrite "no"] (Some "not found").

Definition turns : list nat := concat (replicate 21 [0; 1]%nat).

Definition served : list CutStage :=
  servedCuts SampleSetup.SplitHostPort Sample.MD5 Sample.JSONMarshal Sample.rangeKeys
    Sample.DumpRequest Sample.WriteSubset Sample.DumpResponse Sample.ParseFloat string
    SampleXid.FromString SampleXid.String_ SampleXid.New baseLogger.

(** Not a stage of [handler.go], and here to compare with [NewHandler] only: a stage that
    puts the one logger in cell [0] in the context of every request. *)
Definition cutSharedLogger : CutStage :=
  mkCutStage
    (fun next w r σ => next w (mkRequest (Method r) (RequestURI r) (RemoteAddr r) (Some 0%nat)) σ)
    (fun w r σ => (w, mkRequest (Method r) (RequestURI r) (RemoteAddr r) (Some 0%nat), σ)).

Definition sharing : list CutStage :=
  cutSharedLogger
  :: servedRest SampleSetup.SplitHostPort Sample.MD5 Sample.JSONMarshal Sample.rangeKeys
       Sample.DumpRequest Sample.WriteSubset Sample.DumpResponse Sample.ParseFloat string
       SampleXid.FromString SampleXid.String_ SampleXid.New.

End SampleClients.

(** * Properties *)

Import Redaction.

(** ** Running the definitions on small inputs *)

Example Split_two : Split ("a" +:+ CRLFCRLF +:+ "b=1") CRLFCRLF = ["a"; "b=1"].
Proof. reflexivity. Qed.

Example Split_none : Split "abc" CRLFCRLF = ["abc"].
Proof. reflexivity. Qed.

Example Split_three :
  Split ("a" +:+ CRLFCRLF +:+ "b" +:+ CRLFCRLF +:+ "") CRLFCRLF = ["a"; "b"; ""].
Proof. reflexivity. Qed.

Example ParseQuery_ex :
  ParseQuery "b=2&a=1&a=x+y%21" = ({[ "a" := ["1"; "x y!"]; "b" := ["2"] ]}, None).
Proof. vm_compute. reflexivity. Qed.

Example ParseQuery_bad : (ParseQuery "a=%zz&b=1").2 = Some EscapeError.
Proof. vm_compute. reflexivity. Qed.

Example ParseQuery_semicolon : (ParseQuery "a=1;b=2").2 = Some SemicolonError.
Proof. vm_compute. reflexivity. Qed.

Example Encode_ex : Encode {[ "b" := ["2 3"]; "a" := ["1"; "x!"] ]} = "a=1&a=x%21&b=2+3".
Proof. vm_compute. reflexivity. Qed.

Example Canonical_ex : CanonicalMIMEHeaderKey "request-id" = "Request-Id".
Proof. reflexivity. Qed.

Example ParseInt_ex : ParseInt "-42" = Some (-42)%Z ∧ ParseInt "4x" = None ∧ ParseUint "-1" = None.
Proof. vm_compute. auto. Qed.

(** ** [Values.Encode] *)

Lemma sortedKeys_Sorted (v : Values) : Sorted String.le (sortedKeys v).
Proof. apply Sorted_merge_sort, _. Qed.

Lemma sortedKeys_Permutation (v : Values) : sortedKeys v ≡ₚ (map_to_list v).*1.
Proof. apply merge_sort_Permutation. Qed.

Lemma NoDup_sortedKeys (v : Values) : NoDup (sortedKeys v).
Proof. rewrite sortedKeys_Permutation. apply NoDup_fst_map_to_list. Qed.

Lemma elem_of_keys (v : Values) k : k ∈ (map_to_list v).*1 ↔ is_Some (v !! k).
Proof.
  rewrite list_elem_of_fmap. split.
  - intros [[k' x] [-> Hx]]. apply elem_of_map_to_list in Hx. by exists x.
  - intros [x Hx]. exists (k, x). split; [done|]. by apply elem_of_map_to_list.
Qed.

Lemma elem_of_sortedKeys (v : Values) k : k ∈ sortedKeys v ↔ is_Some (v !! k).
Proof. rewrite sortedKeys_Permutation. apply elem_of_keys. Qed.

(** A key bound to one value shows as the piece [key=value], both escaped. *)
Lemma encodePieces_elem (v : Values) k x :
  v !! k = Some [x] → (QueryEscape k +:+ "=" +:+ QueryEscape x) ∈ encodePieces v.
Proof.
  intros Hk. unfold encodePieces. apply list_elem_of_bind. exists k. split.
  - rewrite Hk. simpl. apply list_elem_of_singleton. done.
  - apply elem_of_sortedKeys. by exists [x].
Qed.

(** With one value per key there is one piece per key, in key order. *)
Lemma encodePieces_single (v : Values) :
  (∀ k vs, v !! k = Some vs → ∃ x, vs = [x]) →
  encodePieces v =
  (fun k => QueryEscape k +:+ "=" +:+ QueryEscape (Get v k)) <$> sortedKeys v.
Proof.
  intros Hone. unfold encodePieces.
  assert (∀ k, k ∈ sortedKeys v → is_Some (v !! k)) as Hin
    by (intros k; apply elem_of_sortedKeys).
  induction (sortedKeys v) as [|k ks IH]; [done|].
  rewrite fmap_cons, bind_cons. rewrite IH by (intros ??; apply Hin; by right).
  destruct (Hin k) as [vs Hvs]; [by left|].
  destruct (Hone _ _ Hvs) as [x ->]. unfold Get. rewrite Hvs. done.
Qed.

(** ** The redactor *)

Section Redactor.

Variable MD5 : string → string.
Variable JSONMarshal : gmap string string → string.
Variable rangeKeys : list string → list string.
Hypothesis rangeKeys_perm : ∀ l, rangeKeys l ≡ₚ l.

Variable postData : Values.

Local Abbreviation oversized := (Redaction.oversized postData).
Local Abbreviation target := (Redaction.target postData).
Local Abbreviation payload := (Redaction.payload MD5 postData).
Local Abbreviation entryOf := (Redaction.entryOf MD5 postData).
Local Abbreviation visited := (Redaction.visited rangeKeys postData).
Local Abbreviation redacted := (Redaction.redacted MD5 rangeKeys postData).
Local Abbreviation entries := (Redaction.entries MD5 rangeKeys postData).
Local Abbreviation noClash := (Redaction.noClash postData).

Lemma redactField_step urlVal store k :
  redactField MD5 JSONMarshal postData (urlVal, store) k =
  (Set_ urlVal (target k) (payload k),
   if oversized k then (fun lines => lines ++ [JSONMarshal (entryOf k)])%list <$> store
   else store).
Proof.
  unfold redactField, target, payload, oversized, entryOf.
  destruct (1000 <? String.length (Get postData k))%nat; destruct store; reflexivity.
Qed.

Lemma fold_redactField ks urlVal store :
  fold_left (redactField MD5 JSONMarshal postData) ks (urlVal, store) =
  (fold_left (fun m k => Set_ m (target k) (payload k)) ks urlVal,
   (fun lines => lines ++ ((JSONMarshal ∘ entryOf) <$> filter (fun k => oversized k = true) ks))%list
     <$> store).
Proof.
  revert urlVal store. induction ks as [|k ks IH]; intros urlVal store; cbn [fold_left].
  - destruct store; simpl; by rewrite ?app_nil_r.
  - rewrite redactField_step, IH. f_equal.
    destruct (oversized k) eqn:Hk.
    + rewrite filter_cons_True by done. destruct store; simpl; [|done].
      by rewrite <- app_assoc.
    + rewrite filter_cons_False by (by rewrite Hk). done.
Qed.

Lemma lookup_fold_Set_notin (f g : string → string) ks (m : Values) x :
  x ∉ f <$> ks →
  fold_left (fun m k => Set_ m (f k) (g k)) ks m !! x = m !! x.
Proof.
  revert m. induction ks as [|k ks IH]; intros m Hx; simpl; [done|].
  rewrite fmap_cons in Hx. apply not_elem_of_cons in Hx as [Hne Hx].
  rewrite IH by done. unfold Set_. by rewrite lookup_insert_ne.
Qed.

Lemma lookup_fold_Set_in (f g : string → string) ks (m : Values) k :
  NoDup (f <$> ks) → k ∈ ks →
  fold_left (fun m k => Set_ m (f k) (g k)) ks m !! f k = Some [g k].
Proof.
  revert m. induction ks as [|a ks IH]; intros m Hnd Hk; simpl.
  - by apply elem_of_nil in Hk.
  - rewrite fmap_cons in Hnd. apply NoDup_cons in Hnd as [Ha Hnd].
    apply elem_of_cons in Hk as [->|Hk].
    + rewrite lookup_fold_Set_notin by done. unfold Set_. by rewrite lookup_insert_eq.
    + by apply IH.
Qed.

Lemma NoDup_visited : NoDup visited.
Proof. unfold visited. rewrite rangeKeys_perm. apply NoDup_fst_map_to_list. Qed.

Lemma elem_of_visited k : k ∈ visited ↔ is_Some (postData !! k).
Proof. unfold visited. rewrite rangeKeys_perm. apply elem_of_keys. Qed.

Lemma hashPostRequest_parsed store req head body :
  Split req CRLFCRLF = [head; body] →
  ParseQuery body = (postData, None) →
  hashPostRequest MD5 JSONMarshal rangeKeys store req =
  (head +:+ CRLFCRLF +:+ Encode redacted,
   (fun lines => lines ++ (JSONMarshal <$> entries))%list <$> store).
Proof.
  intros Hsplit Hparse. unfold hashPostRequest. rewrite Hsplit, Hparse.
  fold visited. rewrite fold_redactField. fold redacted.
  unfold entries. by rewrite list_fmap_compose.
Qed.

Lemma target_inj x y :
  noClash → is_Some (postData !! x) → is_Some (postData !! y) →
  target x = target y → x = y.
Proof.
  intros Hno Hx Hy. unfold target.
  destruct (oversized x) eqn:Ox, (oversized y) eqn:Oy; intros Heq.
  - by apply (inj (String.append "md5-")) in Heq.
  - subst y. rewrite (Hno x Hx Ox) in Hy. by destruct Hy.
  - subst x. rewrite (Hno y Hy Oy) in Hx. by destruct Hx.
  - done.
Qed.

Lemma NoDup_targets : noClash → NoDup (target <$> visited).
Proof.
  intros Hno. apply NoDup_fmap_2_strong; [|apply NoDup_visited].
  intros x y Hx%elem_of_visited Hy%elem_of_visited. by apply target_inj.
Qed.

Lemma redacted_lookup k :
  noClash → is_Some (postData !! k) → redacted !! target k = Some [payload k].
Proof.
  intros Hno Hk. apply lookup_fold_Set_in; [by apply NoDup_targets|].
  by apply elem_of_visited.
Qed.

Lemma redacted_oversized_gone k :
  noClash → is_Some (postData !! k) → oversized k = true → redacted !! k = None.
Proof.
  intros Hno Hk Ok. unfold redacted. rewrite lookup_fold_Set_notin; [done|].
  intros [j [Hj Hin%elem_of_visited]]%list_elem_of_fmap. unfold target in Hj.
  destruct (oversized j) eqn:Oj.
  - subst k. rewrite (Hno j Hin Oj) in Hk. by destruct Hk.
  - congruence.
Qed.

Lemma redacted_single k vs : redacted !! k = Some vs → ∃ x, vs = [x].
Proof.
  unfold redacted. generalize visited. intros ks.
  assert (∀ k vs, (∅ : Values) !! k = Some vs → ∃ x, vs = [x]) as Hm
    by (intros ??; by rewrite lookup_empty).
  revert Hm k vs. generalize (∅ : Values).
  induction ks as [|a ks IH]; intros m Hm k vs; simpl; [apply Hm|].
  apply IH. intros k' vs'. unfold Set_. rewrite lookup_insert.
  case_decide; [|apply Hm]. intros [= <-]. by eexists.
Qed.

Lemma redacted_small :
  (∀ k, is_Some (postData !! k) → oversized k = false) →
  redacted = (fun vs => [hd "" vs]) <$> postData ∧ entries = [].
Proof.
  intros Hsmall.
  assert noClash as Hno by (intros j Hj Oj; rewrite (Hsmall j Hj) in Oj; done).
  split.
  - apply map_eq. intros k. rewrite lookup_fmap.
    destruct (postData !! k) as [vs|] eqn:Hk; simpl.
    + pose proof (redacted_lookup k Hno (mk_is_Some _ _ Hk)) as Hl.
      unfold target, payload in Hl. rewrite (Hsmall k) in Hl by by eexists.
      rewrite Hl. unfold Get. rewrite Hk. by destruct vs.
    + unfold redacted. rewrite lookup_fold_Set_notin; [done|].
      intros [j [Hj Hin%elem_of_visited]]%list_elem_of_fmap. unfold target in Hj.
      rewrite (Hsmall j Hin) in Hj. subst j. rewrite Hk in Hin. by destruct Hin.
  - unfold entries.
    assert (∀ k, k ∈ visited → oversized k = false) as Hall
      by (intros k Hin%elem_of_visited; by apply Hsmall).
    induction visited as [|a l IH]; [done|].
    rewrite filter_cons_False by (rewrite (Hall a) by (by left); done).
    apply IH. intros k Hin. apply Hall. by right.
Qed.

Lemma entryOf_field k : entryOf k !! "field" = Some k.
Proof. unfold entryOf, redactionEntry. by rewrite lookup_insert_eq. Qed.

Lemma filter_field_entryOf (l : list string) k :
  NoDup l →
  filter (fun e : gmap string string => e !! "field" = Some k) (entryOf <$> l) =
  if decide (k ∈ l) then [entryOf k] else [].
Proof.
  induction l as [|a l IH]; intros Hnd.
  - rewrite decide_False; [done | apply not_elem_of_nil].
  - apply NoDup_cons in Hnd as [Ha Hnd]. rewrite fmap_cons, filter_cons.
    rewrite entryOf_field, (IH Hnd). destruct (decide (a = k)) as [->|Hne].
    + rewrite decide_True by done. rewrite decide_False by done.
      rewrite decide_True by (by left). done.
    + rewrite decide_False by congruence.
      destruct (decide (k ∈ l)) as [Hin|Hin].
      * rewrite decide_True by (by right). done.
      * rewrite decide_False; [done|]. intros [->|?]%elem_of_cons; done.
Qed.

Lemma entries_for k :
  filter (fun e : gmap string string => e !! "field" = Some k) entries =
  if decide (is_Some (postData !! k) ∧ oversized k = true) then [entryOf k] else [].
Proof.
  unfold entries. rewrite filter_field_entryOf by apply NoDup_filter, NoDup_visited.
  destruct (decide (k ∈ filter _ visited)) as [Hin|Hin];
    rewrite list_elem_of_filter, elem_of_visited in Hin.
  - rewrite decide_True; [done | tauto].
  - rewrite decide_False; [done | tauto].
Qed.

End Redactor.

(** With a logger in the context, the stage logs the message of
    [dumpRequestMsg] under its field key and leaves the store as the
    redactor left it. *)
Lemma DumpRequestHandler_logs MD5 JSONMarshal rangeKeys DumpRequest fieldKey next w r σ l :
  ctxLogger r = Some l →
  DumpRequestHandler MD5 JSONMarshal rangeKeys DumpRequest fieldKey next w r σ =
  let out := dumpRequestMsg MD5 JSONMarshal rangeKeys (hashStore σ)
               (DumpRequest r (reqHeader σ)) in
  next w r (UpdateContext r (Str fieldKey out.1) (setHashStore out.2 σ)).
Proof.
  intros Hl. unfold DumpRequestHandler. rewrite Hl.
  by destruct (dumpRequestMsg _ _ _ _ _).
Qed.

Lemma Sample_rangeKeys_perm l : Sample.rangeKeys l ≡ₚ l.
Proof. apply reverse_Permutation. Qed.

(** C7: a text that does not split in exactly two parts at the blank line,
    or whose second part [url.ParseQuery] rejects, comes back from
    [hashPostRequest] as it went in, byte for byte, and nothing is written
    to the store; the function is total, so no input makes it fail. *)
Theorem C7_hashPostRequest_fail_open
    (MD5 : string → string) (JSONMarshal : gmap string string → string)
    (rangeKeys : list string → list string) (store : option (list string)) (req : string) :
  (length (Split req CRLFCRLF) ≠ 2 ∨
   ∃ head body, Split req CRLFCRLF = [head; body] ∧ (ParseQuery body).2 ≠ None) →
  hashPostRequest MD5 JSONMarshal rangeKeys store req = (req, store).
Proof.
  intros [Hlen | (head & body & Hsplit & Herr)]; unfold hashPostRequest.
  - destruct (Split req CRLFCRLF) as [|? [|? [|? ?]]]; try reflexivity.
    by destruct Hlen.
  - rewrite Hsplit. destruct (ParseQuery body) as [m [e|]]; [reflexivity|].
    by destruct Herr.
Qed.

Lemma C7_fail_open_witness :
  hashPostRequest Sample.MD5 Sample.JSONMarshal Sample.rangeKeys (Some [])
    "GET /index.html HTTP/1.1" = ("GET /index.html HTTP/1.1", Some [])
  ∧ hashPostRequest Sample.MD5 Sample.JSONMarshal Sample.rangeKeys (Some [])
      ("POST /f HTTP/1.1" +:+ CRLFCRLF +:+ "a=%zz")
    = ("POST /f HTTP/1.1" +:+ CRLFCRLF +:+ "a=%zz", Some []).
Proof.
  split.
  - apply C7_hashPostRequest_fail_open. left. vm_compute. lia.
  - apply C7_hashPostRequest_fail_open. right.
    exists "POST /f HTTP/1.1", "a=%zz". split; [reflexivity | vm_compute; discriminate].
Defined.

Lemma smallDump_parsed :
  Split Sample.smallDump CRLFCRLF = ["POST /f HTTP/1.1"; "b=x%7Ey&a=1&a=3"]
  ∧ ParseQuery "b=x%7Ey&a=1&a=3" = ({[ "a" := ["1"; "3"]; "b" := ["x~y"] ]}, None).
Proof. split; vm_compute; reflexivity. Qed.

Lemma smallDump_fields_small k :
  (String.length (Get {[ "a" := ["1"; "3"]; "b" := ["x~y"] ]} k) ≤ 1000)%nat.
Proof.
  unfold Get. destruct (_ !! k) as [vs|] eqn:Hk; [|simpl; lia].
  apply elem_of_map_to_list in Hk.
  replace (map_to_list _) with [("a", ["1"; "3"]); ("b", ["x~y"])] in Hk
    by (vm_compute; reflexivity).
  repeat (apply elem_of_cons in Hk as [[= -> ->]|Hk]; [simpl; lia|]).
  by apply elem_of_nil in Hk.
Qed.

(** C10, as the code has it: with no store configured the stage logs the
    dump as it is, its body untouched. With a store, when the dump splits
    at the blank line and the body parses, the message logged is the first
    part, the blank line and the body written anew with [Values.Encode]:
    one [key=value] piece per key, the keys sorted and each once, both
    sides escaped again; when no field is over 1000 bytes every key keeps
    the first of its values and the store is left alone. The body logged
    then need not be the body that came in: [b=x%7Ey&a=1&a=3] is logged as
    [a=1&b=x~y]. The message is what [DumpRequestHandler] puts under its
    field key. *)
Theorem C10_canonical_reencoding
    (MD5 : string → string) (JSONMarshal : gmap string string → string)
    (rangeKeys : list string → list string) :
  (∀ l, rangeKeys l ≡ₚ l) →
  (∀ text, dumpRequestMsg MD5 JSONMarshal rangeKeys None (inl text) = (text, None))
  ∧ (∀ lines req head body postData,
     Split req CRLFCRLF = [head; body] →
     ParseQuery body = (postData, None) →
     ∃ urlVal : Values,
       (dumpRequestMsg MD5 JSONMarshal rangeKeys (Some lines) (inl req)).1 =
         head +:+ CRLFCRLF +:+
         Join ((fun k => QueryEscape k +:+ "=" +:+ QueryEscape (Get urlVal k))
                 <$> sortedKeys urlVal) "&"
       ∧ Sorted String.le (sortedKeys urlVal)
       ∧ NoDup (sortedKeys urlVal)
       ∧ ((∀ k, is_Some (postData !! k) → (String.length (Get postData k) ≤ 1000)%nat) →
          urlVal = (fun vs => [hd "" vs]) <$> postData
          ∧ (dumpRequestMsg MD5 JSONMarshal rangeKeys (Some lines) (inl req)).2
            = Some lines))
  ∧ (∀ lines,
       (dumpRequestMsg MD5 JSONMarshal rangeKeys (Some lines) (inl Sample.smallDump)).1 =
         "POST /f HTTP/1.1" +:+ CRLFCRLF +:+ "a=1&b=x~y"
       ∧ (dumpRequestMsg MD5 JSONMarshal rangeKeys (Some lines) (inl Sample.smallDump)).1
         ≠ Sample.smallDump)
  ∧ (∀ DumpRequest fieldKey next w r σ l,
       ctxLogger r = Some l →
       DumpRequestHandler MD5 JSONMarshal rangeKeys DumpRequest fieldKey next w r σ =
       let out := dumpRequestMsg MD5 JSONMarshal rangeKeys (hashStore σ)
                    (DumpRequest r (reqHeader σ)) in
       next w r (UpdateContext r (Str fieldKey out.1) (setHashStore out.2 σ))).
Proof.
  intros Hperm. split; [reflexivity|].
  assert (∀ lines req head body postData,
     Split req CRLFCRLF = [head; body] →
     ParseQuery body = (postData, None) →
     ∃ urlVal : Values,
       (dumpRequestMsg MD5 JSONMarshal rangeKeys (Some lines) (inl req)).1 =
         head +:+ CRLFCRLF +:+
         Join ((fun k => QueryEscape k +:+ "=" +:+ QueryEscape (Get urlVal k))
                 <$> sortedKeys urlVal) "&"
       ∧ Sorted String.le (sortedKeys urlVal)
       ∧ NoDup (sortedKeys urlVal)
       ∧ ((∀ k, is_Some (postData !! k) → (String.length (Get postData k) ≤ 1000)%nat) →
          urlVal = (fun vs => [hd "" vs]) <$> postData
          ∧ (dumpRequestMsg MD5 JSONMarshal rangeKeys (Some lines) (inl req)).2
            = Some lines)) as Hgen.
  { intros lines req head body postData Hsplit Hparse.
    exists (redacted MD5 rangeKeys postData). unfold dumpRequestMsg.
    rewrite (hashPostRequest_parsed MD5 JSONMarshal rangeKeys postData _ req head body)
      by done.
    simpl. split; [|split; [apply sortedKeys_Sorted|split; [apply NoDup_sortedKeys|]]].
    - unfold Encode. rewrite encodePieces_single; [done|].
      apply redacted_single.
    - intros Hsmall.
      destruct (redacted_small MD5 rangeKeys Hperm postData) as [Hr He].
      { intros k Hk. unfold oversized. apply Nat.ltb_ge. by apply Hsmall. }
      split; [done|]. rewrite He. simpl. by rewrite app_nil_r. }
  split; [exact Hgen|]. split.
  - intros lines. destruct smallDump_parsed as [Hsplit Hparse].
    destruct (Hgen lines _ _ _ _ Hsplit Hparse) as (urlVal & Heq & _ & _ & Hsmall).
    destruct Hsmall as [-> _]; [intros k _; apply smallDump_fields_small|].
    assert ((dumpRequestMsg MD5 JSONMarshal rangeKeys (Some lines)
               (inl Sample.smallDump)).1 =
            "POST /f HTTP/1.1" +:+ CRLFCRLF +:+ "a=1&b=x~y") as Hres.
    { rewrite Heq. vm_compute. reflexivity. }
    split; [exact Hres|]. rewrite Hres. vm_compute. discriminate.
  - intros DumpRequest fieldKey next w r σ l Hl. by eapply DumpRequestHandler_logs.
Qed.

Lemma C10_reencoding_witness :
  (dumpRequestMsg Sample.MD5 Sample.JSONMarshal Sample.rangeKeys (Some [])
     (inl Sample.smallDump)).1 = "POST /f HTTP/1.1" +:+ CRLFCRLF +:+ "a=1&b=x~y".
Proof.
  apply (C10_canonical_reencoding Sample.MD5 Sample.JSONMarshal Sample.rangeKeys
           Sample_rangeKeys_perm).
Defined.

(** C10 as stated fails when no store is configured: the dump splits at
    the blank line and its body [b=x%7Ey&a=1&a=3] parses, yet the stage
    logs the dump as it is, with that body and not the body written anew,
    [a=1&b=x~y]. *)
Lemma C10_counterexample :
  Split Sample.smallDump CRLFCRLF = ["POST /f HTTP/1.1"; "b=x%7Ey&a=1&a=3"]
  ∧ ParseQuery "b=x%7Ey&a=1&a=3" = ({[ "a" := ["1"; "3"]; "b" := ["x~y"] ]}, None)
  ∧ Encode {[ "a" := ["1"]; "b" := ["x~y"] ]} = "a=1&b=x~y"
  ∧ (∀ MD5 JSONMarshal rangeKeys,
       dumpRequestMsg MD5 JSONMarshal rangeKeys None (inl Sample.smallDump)
       = (Sample.smallDump, None))
  ∧ (∀ MD5 JSONMarshal rangeKeys,
       loggers (DumpRequestHandler MD5 JSONMarshal rangeKeys
                  (fun _ _ => inl Sample.smallDump) "request"
                  (fun _ _ σ => (σ, None)) WHost loggedRequest loggedWorld).1
       = [[("service", VStr "caddy");
           ("request", VStr ("POST /f HTTP/1.1" +:+ CRLFCRLF +:+ "b=x%7Ey&a=1&a=3"))]])
  ∧ "POST /f HTTP/1.1" +:+ CRLFCRLF +:+ "b=x%7Ey&a=1&a=3"
    ≠ "POST /f HTTP/1.1" +:+ CRLFCRLF +:+ "a=1&b=x~y".
Proof.
  split; [vm_compute; reflexivity|]. split; [vm_compute; reflexivity|].
  split; [vm_compute; reflexivity|]. split; [reflexivity|]. split; [reflexivity|].
  vm_compute. discriminate.
Qed.

(** C1, as the code has it: with no store configured the dump is logged as
    it is. With a store, a dump that splits at the blank line and whose
    body parses is treated field by field, on the first value [v] of each
    key [k]: over 1000 bytes, one line [{field: k, md5: MD5 v, content: v}]
    goes to the store and no other line for [k], and the logged body binds
    [md5-k] to [MD5 v] and has no key [k]; otherwise no line is written for
    [k] and the logged body binds [k] to [v]. What the logged body holds is
    stated for forms in which no field is named [md5-j] for an oversized
    field [j]. *)
Theorem C1_redaction_by_field
    (MD5 : string → string) (JSONMarshal : gmap string string → string)
    (rangeKeys : list string → list string) :
  (∀ l, rangeKeys l ≡ₚ l) →
  ∀ lines req head body postData,
  Split req CRLFCRLF = [head; body] →
  ParseQuery body = (postData, None) →
  (∀ text, dumpRequestMsg MD5 JSONMarshal rangeKeys None (inl text) = (text, None))
  ∧ ∃ (urlVal : Values) (written : list (gmap string string)),
      dumpRequestMsg MD5 JSONMarshal rangeKeys (Some lines) (inl req) =
        (head +:+ CRLFCRLF +:+ Encode urlVal, Some (lines ++ (JSONMarshal <$> written))%list)
      ∧ ∀ k, is_Some (postData !! k) →
          let v := Get postData k in
          if (1000 <? String.length v)%nat then
            filter (fun e : gmap string string => e !! "field" = Some k) written
              = [redactionEntry k (MD5 v) v]
            ∧ (noClash postData →
               urlVal !! ("md5-" +:+ k) = Some [MD5 v]
               ∧ urlVal !! k = None
               ∧ (QueryEscape ("md5-" +:+ k) +:+ "=" +:+ QueryEscape (MD5 v))
                   ∈ encodePieces urlVal)
          else
            filter (fun e : gmap string string => e !! "field" = Some k) written = []
            ∧ (noClash postData →
               urlVal !! k = Some [v]
               ∧ (QueryEscape k +:+ "=" +:+ QueryEscape v) ∈ encodePieces urlVal).
Proof.
  intros Hperm lines req head body postData Hsplit Hparse.
  split; [reflexivity|].
  exists (redacted MD5 rangeKeys postData), (entries MD5 rangeKeys postData).
  split.
  { unfold dumpRequestMsg.
    by rewrite (hashPostRequest_parsed MD5 JSONMarshal rangeKeys postData _ req head body). }
  intros k Hk v.
  pose proof (entries_for MD5 rangeKeys Hperm postData k) as Hent.
  pose proof (redacted_lookup MD5 rangeKeys Hperm postData k) as Hlook.
  unfold target, payload, oversized in Hlook. unfold oversized in Hent. fold v in Hlook, Hent.
  destruct (1000 <? String.length v)%nat eqn:Hv.
  - split.
    + rewrite Hent. rewrite decide_True by done. reflexivity.
    + intros Hno. specialize (Hlook Hno Hk). split; [done|]. split.
      * apply (redacted_oversized_gone MD5 rangeKeys Hperm postData k Hno Hk). exact Hv.
      * by apply encodePieces_elem.
  - split.
    + rewrite Hent. rewrite decide_False; [done|]. intros [_ ?]. done.
    + intros Hno. specialize (Hlook Hno Hk). split; [done|]. by apply encodePieces_elem.
Qed.

Lemma bigDump_parsed :
  Split Sample.bigDump CRLFCRLF = [Sample.bigHead; "k=" +:+ Sample.bigValue]
  ∧ ParseQuery ("k=" +:+ Sample.bigValue) = ({[ "k" := [Sample.bigValue] ]}, None)
  ∧ Get {[ "k" := [Sample.bigValue] ]} "k" = Sample.bigValue
  ∧ String.length Sample.bigValue = 1001.
Proof. repeat split; vm_compute; reflexivity. Qed.

Lemma C1_redaction_witness :
  ∃ (urlVal : Values) (written : list (gmap string string)),
    dumpRequestMsg Sample.MD5 Sample.JSONMarshal Sample.rangeKeys (Some []) (inl Sample.bigDump)
      = (Sample.bigHead +:+ CRLFCRLF +:+ Encode urlVal,
         Some ([] ++ (Sample.JSONMarshal <$> written))%list)
    ∧ filter (fun e : gmap string string => e !! "field" = Some "k") written
        = [redactionEntry "k" (Sample.MD5 Sample.bigValue) Sample.bigValue].
Proof.
  destruct bigDump_parsed as (Hsplit & Hparse & Hget & Hlen).
  destruct (C1_redaction_by_field Sample.MD5 Sample.JSONMarshal Sample.rangeKeys
              Sample_rangeKeys_perm [] _ _ _ _ Hsplit Hparse)
    as (_ & urlVal & written & Hmsg & Hfields).
  exists urlVal, written. split; [exact Hmsg|].
  specialize (Hfields "k"). simpl in Hfields. rewrite Hget in Hfields.
  rewrite Hlen in Hfields. simpl in Hfields. apply Hfields.
  rewrite lookup_singleton_eq. by eexists.
Defined.

(** C1 as stated fails when no store is configured: the dump holds a form
    field [k] of 1001 bytes, and the message logged is the dump itself,
    whose body is [k=] and the raw value; there is no byte [m] in that
    body, so no [md5-k]. *)
Lemma C1_counterexample :
  Split Sample.bigDump CRLFCRLF = [Sample.bigHead; "k=" +:+ Sample.bigValue]
  ∧ ParseQuery ("k=" +:+ Sample.bigValue) = ({[ "k" := [Sample.bigValue] ]}, None)
  ∧ String.length Sample.bigValue = 1001
  ∧ (∀ MD5 JSONMarshal rangeKeys,
       dumpRequestMsg MD5 JSONMarshal rangeKeys None (inl Sample.bigDump)
       = (Sample.bigDump, None))
  ∧ ContainsByte ("k=" +:+ Sample.bigValue) "m" = false.
Proof. repeat split; vm_compute; reflexivity. Qed.

(** ** The typed response-header stage *)

Lemma loggers_UpdateContext r update σ :
  loggers (UpdateContext r update σ) = updateContext (ctxLogger r) update (loggers σ).
Proof. reflexivity. Qed.

Lemma host_UpdateContext r update σ : host (UpdateContext r update σ) = host σ.
Proof. reflexivity. Qed.

Lemma proxies_UpdateContext r update σ : proxies (UpdateContext r update σ) = proxies σ.
Proof. reflexivity. Qed.

(** C8: for a configured kind among bool, int, uint, float and str, the
    field logged for a header value is the parsed native value when the
    value parses as the kind, and the raw string under the same key when it
    does not; whatever the configured kind, one field with the header's
    name is added; the stage returns the error of the handler it wraps,
    and logs the field whenever the observed value is not empty. *)
Theorem C8_typed_header_field
    (ParseFloat : string → option float) (kind : Kind) (headerName v : string) :
  (∀ c val, parseAs ParseFloat kind v = Some val →
     typedField ParseFloat headerName (kindName kind) v c = (c ++ [(headerName, val)])%list)
  ∧ (∀ c, parseAs ParseFloat kind v = None →
     typedField ParseFloat headerName (kindName kind) v c = (c ++ [(headerName, VStr v)])%list)
  ∧ (∀ valType c, ∃ val,
     typedField ParseFloat headerName valType v c = (c ++ [(headerName, val)])%list)
  ∧ (∀ valType next w r σ,
     let '(nw, σ1) := NewRespProxyWriter w σ in
     let '(σ2, err) := next (WProxy nw) r σ1 in
     let seen := HGet (SourceHeader (proxyAt nw σ2)) headerName in
     (ResponseHeaderHandler ParseFloat headerName valType next w r σ).2 = err
     ∧ (seen ≠ "" → ∀ l c, ctxLogger r = Some l → loggers σ2 !! l = Some c →
        loggers (ResponseHeaderHandler ParseFloat headerName valType next w r σ).1 !! l
        = Some (typedField ParseFloat headerName valType seen c))).
Proof.
  split; [|split; [|split]].
  - intros c val. destruct kind; simpl; unfold typedField; simpl.
    + destruct (ParseBool v); intros [= <-]; reflexivity.
    + destruct (ParseInt v); intros [= <-]; reflexivity.
    + destruct (ParseUint v); intros [= <-]; reflexivity.
    + destruct (ParseFloat v); intros [= <-]; reflexivity.
    + intros [= <-]; reflexivity.
  - intros c. destruct kind; simpl; unfold typedField; simpl.
    + destruct (ParseBool v); [discriminate | reflexivity].
    + destruct (ParseInt v); [discriminate | reflexivity].
    + destruct (ParseUint v); [discriminate | reflexivity].
    + destruct (ParseFloat v); [discriminate | reflexivity].
    + discriminate.
  - intros valType c. unfold typedField.
    repeat (case_match; try (eexists; reflexivity)).
  - intros valType next w r σ. unfold ResponseHeaderHandler.
    destruct (NewRespProxyWriter w σ) as [nw σ1].
    destruct (next (WProxy nw) r σ1) as [σ2 err]. simpl.
    split; [reflexivity|]. intros Hseen l c Hl Hc.
    destruct (String.eqb_spec (HGet (SourceHeader (proxyAt nw σ2)) headerName) "")
      as [Heq|_]; [by destruct Hseen|].
    rewrite loggers_UpdateContext, Hl. unfold updateContext.
    rewrite list_lookup_alter_eq, Hc. reflexivity.
Qed.

Example typed_header_examples (ParseFloat : string → option float) (f : float) c :
  ParseFloat "3.14" = Some f → ParseFloat "notanumber" = None →
  typedField ParseFloat "Cost" "float" "3.14" c = (c ++ [("Cost", VFloat64 f)])%list
  ∧ typedField ParseFloat "Cost" "float" "notanumber" c
    = (c ++ [("Cost", VStr "notanumber")])%list
  ∧ typedField ParseFloat "Cost" "int" "-12" c = (c ++ [("Cost", VInt64 (-12))])%list
  ∧ typedField ParseFloat "Cost" "uint" "-12" c = (c ++ [("Cost", VStr "-12")])%list.
Proof.
  intros H1 H2. unfold typedField. simpl. rewrite H1, H2. repeat split.
Qed.

(** ** The request-id stage *)

(** C5, the code as it is: the stage takes the id from the inbound header
    when [xid.FromString] accepts it and a new one from the generator when
    not; with a non-empty field key the id is added to the request's
    logger; with a non-empty header name the id is set on the request's
    own header map, [r.Header]. The response writer and its header map are
    handed on as they were: after [NewHandler] and
    [RequestIDHandler "req_id" "Request-Id"] a response [ok] reaches the
    client with no [Request-Id] header, while the request carries one. *)
Theorem C5_request_id_on_request_header
    (ID : Type) (xidFromString : string → option ID) (xidString : ID → string)
    (xidNew : nat → ID) (fieldKey headerName : string) (next : Handler)
    (w : Writer) (r : Request) (σ : World) :
  (∃ id σ',
     RequestIDHandler ID xidFromString xidString xidNew fieldKey headerName next w r σ
       = next w r σ'
     ∧ host σ' = host σ
     ∧ proxies σ' = proxies σ
     ∧ (xidFromString (HGet (reqHeader σ) headerName) = None → id = xidNew (xids σ))
     ∧ (∀ x, xidFromString (HGet (reqHeader σ) headerName) = Some x → id = x)
     ∧ (fieldKey ≠ "" →
        loggers σ' = updateContext (ctxLogger r) (Str fieldKey (xidString id)) (loggers σ))
     ∧ (headerName ≠ "" → reqHeader σ' = HSet (reqHeader σ) headerName (xidString id)))
  ∧ (let σ' := (NewHandler []
                  (RequestIDHandler string SampleXid.FromString SampleXid.String_
                     SampleXid.New "req_id" "Request-Id" (respond [OWrite "ok"] None))
                  WHost emptyRequest emptyWorld).1 in
     rwSent (host σ') = Some (200%Z, ∅)
     ∧ rwBody (host σ') = "ok"
     ∧ reqHeader σ' = {[ "Request-Id" := ["9m4e2mr0ui3e8a215n4g"] ]}
     ∧ loggers σ' = [[("req_id", VStr "9m4e2mr0ui3e8a215n4g")]]).
Proof.
  split.
  - unfold RequestIDHandler, resolveID, IDFromRequest.
    destruct (xidFromString (HGet (reqHeader σ) headerName)) as [x|] eqn:Hx.
    + exists x. eexists. split; [reflexivity|].
      destruct (String.eqb_spec fieldKey ""), (String.eqb_spec headerName "");
        repeat split; try done; by intros ? [= ->].
    + exists (xidNew (xids σ)). eexists. split; [reflexivity|].
      destruct (String.eqb_spec fieldKey ""), (String.eqb_spec headerName "");
        repeat split; done.
  - intros σ'. split; [|split; [|split]]; vm_compute; reflexivity.
Qed.

(** ** The response-capturing proxy *)

Lemma append_cons a s t : String a s +:+ t = String a (s +:+ t).
Proof. reflexivity. Qed.

Lemma append_nil_r s : s +:+ "" = s.
Proof. induction s as [|a s IH]; [done|]. by rewrite append_cons, IH. Qed.

Lemma append_assoc s t u : (s +:+ t) +:+ u = s +:+ (t +:+ u).
Proof. induction s as [|a s IH]; [done|]. by rewrite !append_cons, IH. Qed.

Lemma withProxy_pair p method σ x :
  proxies σ !! p = Some x → withProxy p method σ = putPair p (method (x, host σ)) σ.
Proof.
  intros Hp. unfold withProxy, putPair. rewrite Hp. by destruct (method (x, host σ)).
Qed.

Lemma proxies_putPair p xh σ x :
  proxies σ !! p = Some x → proxies (putPair p xh σ) !! p = Some xh.1.
Proof.
  intros Hp. unfold putPair. simpl. apply list_lookup_insert_eq.
  by eapply lookup_lt_Some.
Qed.

Lemma host_putPair p xh σ : host (putPair p xh σ) = xh.2.
Proof. reflexivity. Qed.

Lemma putPair_putPair p xh xh' σ : putPair p xh' (putPair p xh σ) = putPair p xh' σ.
Proof. unfold putPair. simpl. by rewrite list_insert_insert_eq. Qed.

Lemma putPair_id p x σ : proxies σ !! p = Some x → putPair p (x, host σ) σ = σ.
Proof. intros Hp. unfold putPair. simpl. rewrite list_insert_id by done. by destruct σ. Qed.

Lemma runOp_pair p σ x op :
  proxies σ !! p = Some x →
  runOp (WProxy p) σ op = putPair p (stepPair (x, host σ) op) σ.
Proof.
  intros Hp.
  destruct op as [k v|k v|k|code|b]; simpl;
    try (by apply withProxy_pair);
    unfold wHeader, putPair; simpl; by rewrite list_insert_id.
Qed.

Lemma runOps_pair p ops σ x :
  proxies σ !! p = Some x →
  fold_left (runOp (WProxy p)) ops σ = putPair p (fold_left stepPair ops (x, host σ)) σ.
Proof.
  revert σ x. induction ops as [|op ops IH]; intros σ x Hp; cbn [fold_left].
  - by rewrite putPair_id.
  - rewrite (runOp_pair p σ x op Hp).
    rewrite (IH _ _ (proxies_putPair p _ σ x Hp)).
    rewrite host_putPair, putPair_putPair. by destruct (stepPair (x, host σ) op).
Qed.

Lemma flushHeaders_keeps xh :
  Body (flushHeaders xh).1 = Body xh.1
  ∧ Code (flushHeaders xh).1 = Code xh.1
  ∧ wroteHeader (flushHeaders xh).1 = wroteHeader xh.1
  ∧ delHeaders (flushHeaders xh).1 = delHeaders xh.1
  ∧ rwBody (flushHeaders xh).2 = rwBody xh.2
  ∧ rwSent (flushHeaders xh).2 = rwSent xh.2.
Proof. destruct xh as [x h]. unfold flushHeaders. by destruct (flushed x). Qed.

Lemma rwBody_rwWriteHeader code h : rwBody (rwWriteHeader code h) = rwBody h.
Proof. unfold rwWriteHeader. by destruct (rwSent h). Qed.

(** The bytes captured and the bytes forwarded grow by the same slices. *)
Lemma fold_stepPair_body ops xh :
  Body (fold_left stepPair ops xh).1 = Body xh.1 +:+ concatAll (writesOf ops)
  ∧ rwBody (fold_left stepPair ops xh).2 = rwBody xh.2 +:+ concatAll (writesOf ops).
Proof.
  revert xh. induction ops as [|op ops IH]; intros xh; cbn [fold_left].
  - simpl. by rewrite !append_nil_r.
  - destruct (IH (stepPair xh op)) as [-> ->].
    destruct (flushHeaders_keeps xh) as (Hb & _ & _ & _ & Hrb & _).
    destruct op as [k v|k v|k|code|b]; simpl; try done.
    + unfold proxyWriteHeader. destruct (flushHeaders xh) as [x h]; simpl in *.
      rewrite rwBody_rwWriteHeader, Hrb. by destruct (wroteHeader x); simpl; rewrite Hb.
    + unfold proxyWrite, rwWrite. destruct (flushHeaders xh) as [x h]; simpl in *.
      rewrite rwBody_rwWriteHeader, Hb, Hrb, !append_assoc. done.
Qed.

(** The code recorded is the argument of the first [WriteHeader]. *)
Lemma fold_stepPair_code ops xh :
  Code (fold_left stepPair ops xh).1 =
  if wroteHeader xh.1 then Code xh.1 else hd (Code xh.1) (codesOf ops).
Proof.
  revert xh. induction ops as [|op ops IH]; intros xh; cbn [fold_left].
  - simpl. by destruct (wroteHeader xh.1).
  - rewrite IH.
    destruct (flushHeaders_keeps xh) as (_ & Hc & Hw & _).
    destruct op as [k v|k v|k|code|b]; simpl; try done.
    + unfold proxyWriteHeader. destruct (flushHeaders xh) as [x h]; simpl in *.
      rewrite <- Hw, <- Hc. destruct (wroteHeader x) eqn:E; simpl; rewrite ?E; done.
    + unfold proxyWrite. destruct (flushHeaders xh) as [x h]; simpl in *.
      by rewrite Hw, Hc.
Qed.

Lemma NewRespProxyWriter_host σ :
  let '(nw, σ1) := NewRespProxyWriter WHost σ in
  nw = length (proxies σ) ∧ proxies σ1 !! nw = Some newProxy ∧ host σ1 = host σ
  ∧ loggers σ1 = loggers σ ∧ length (proxies σ1) = S (length (proxies σ)).
Proof.
  simpl. repeat split; [by rewrite list_lookup_middle|].
  rewrite length_app. simpl. lia.
Qed.

(** C2: for a handler that makes any calls [ops] on a new proxy, the body
    the proxy holds is the concatenation of the slices written, in order;
    the real writer received exactly these bytes after what it had; and
    the one status code recorded is the argument of the first
    [WriteHeader], or 200 when there was none. *)
Theorem C2_capture_equals_forwarded (ops : list Op) (err : option string)
    (r : Request) (σ : World) :
  let '(nw, σ1) := NewRespProxyWriter WHost σ in
  let σ2 := (respond ops err (WProxy nw) r σ1).1 in
  Body (proxyAt nw σ2) = concatAll (writesOf ops)
  ∧ rwBody (host σ2) = rwBody (host σ) +:+ Body (proxyAt nw σ2)
  ∧ Code (proxyAt nw σ2) = hd 200%Z (codesOf ops).
Proof.
  pose proof (NewRespProxyWriter_host σ) as Hnew.
  destruct (NewRespProxyWriter WHost σ) as [nw σ1].
  destruct Hnew as (_ & Hp & Hh & _).
  unfold respond. cbn [fst]. rewrite (runOps_pair nw ops σ1 newProxy Hp).
  unfold proxyAt. rewrite (proxies_putPair nw _ σ1 newProxy Hp), host_putPair. simpl.
  destruct (fold_stepPair_body ops (newProxy, host σ1)) as [Hb Hrb].
  rewrite Hb, Hrb, fold_stepPair_code, Hh. simpl. done.
Qed.

Example capture_example :
  let σ := (respond [OWrite "he"; OWriteHeader 404; OWrite "llo"] None (WProxy 0)
              emptyRequest (NewRespProxyWriter WHost emptyWorld).2).1 in
  Body (proxyAt 0 σ) = "hello" ∧ rwBody (host σ) = "hello"
  ∧ Code (proxyAt 0 σ) = 404%Z ∧ rwSent (host σ) = Some (200%Z, ∅).
Proof. vm_compute. done. Qed.

(** ** Header deletion *)









Section NeutralStages.

Variable MD5 : string → string.
Variable JSONMarshal : gmap string string → string.
Variable rangeKeys : list string → list string.
Variable DumpRequest : Request → Header → string + string.
Variable WriteSubset : Header → string.
Variable DumpResponse : ResponseLog → string.
Variable ParseFloat : string → option float.
Variable ID : Type.
Variable xidFromString : string → option ID.
Variable xidString : ID → string.
Variable xidNew : nat → ID.








End NeutralStages.








Example deleted_header_example :
  let σ := (DelResponseHeaderHandler "Cost"
              (respond [OSet "cost" "0.25"; OSet "Content-Type" "text/plain"; OWrite "ok"] None)
              WHost emptyRequest emptyWorld).1 in
  rwSent (host σ) = Some (200%Z, {[ "Content-Type" := ["text/plain"] ]})
  ∧ SourceHeader (proxyAt 0 σ) = {[ "Content-Type" := ["text/plain"]; "Cost" := ["0.25"] ]}.
Proof. intros σ. split; vm_compute; reflexivity. Qed.

(** The chain of [zlogChain] on one request: the handler sets [Cost] and
    writes [ok]; the client gets [ok] with no [Cost]; the logger has the
    header, the id, the dump with [b] hashed, the response and [Cost] as a
    float; the request carries the id; the store got one line. *)
Example zlogChain_example :
  let σ := (Then (zlogChain Sample.MD5 Sample.JSONMarshal Sample.rangeKeys
                    Sample.DumpRequest Sample.WriteSubset Sample.DumpResponse
                    Sample.ParseFloat string SampleXid.FromString SampleXid.String_
                    SampleXid.New baseLogger)
                 (respond [OSet "cost" "0.25"; OWrite "ok"] None)
                 WHost emptyRequest storeWorld).1 in
  rwSent (host σ) = Some (200%Z, ∅)
  ∧ rwBody (host σ) = "ok"
  ∧ loggers σ =
      [[("service", VStr "caddy"); ("User-Agent", VStr "curl");
        ("req_id", VStr "9m4e2mr0ui3e8a215n4g");
        ("request",
         VStr ("GET / HTTP/1.1"
               +:+ String CR (String LF "Request-Id: 9m4e2mr0ui3e8a215n4g")
               +:+ CRLFCRLF +:+ "a=1&md5-b=0cc175b9c0f1b6a831c399e269772661"));
        ("response", VStr "ok|Cost: 0.25"); ("Cost", VFloat64 0.25)]]
  ∧ reqHeader σ = {[ "User-Agent" := ["curl"]; "Request-Id" := ["9m4e2mr0ui3e8a215n4g"] ]}
  ∧ length <$> hashStore σ = Some 1.
Proof. intros σ. repeat (split; [vm_compute; reflexivity|]). vm_compute; reflexivity. Qed.

(** ** Wrapping a writer twice *)

Lemma putPair_frame p xh σ :
  loggers (putPair p xh σ) = loggers σ
  ∧ length (proxies (putPair p xh σ)) = length (proxies σ).
Proof. unfold putPair. simpl. by rewrite length_insert. Qed.

(** C6: [NewRespProxyWriter] on a proxy hands back that proxy and changes
    nothing, so wrapping twice is wrapping once; and when the deletion
    stage, the typed-header stage and the response-dump stage each wrap
    the writer they are given, one proxy is made for the three, and what
    the two later stages log is read from that proxy: the body it holds is
    what the handler wrote. *)
Theorem C6_rewrap_reuses_proxy :
  (∀ p σ, NewRespProxyWriter (WProxy p) σ = (p, σ))
  ∧ (∀ w σ, NewRespProxyWriter (WProxy (NewRespProxyWriter w σ).1)
              (NewRespProxyWriter w σ).2 = NewRespProxyWriter w σ)
  ∧ (∀ (WriteSubset : Header → string)
       (DumpResponse : ResponseLog → string)
       (ParseFloat : string → option float)
       delName headerName valType fieldKey ops err r σ,
     let σ' := (DelResponseHeaderHandler delName
                  (ResponseHeaderHandler ParseFloat headerName valType
                     (DumpResponseHandler WriteSubset DumpResponse fieldKey
                        (respond ops err))) WHost r σ).1 in
     let x := proxyAt (length (proxies σ)) σ' in
     let seen := HGet (SourceHeader x) headerName in
     length (proxies σ') = S (length (proxies σ))
     ∧ Body x = concatAll (writesOf ops)
     ∧ Code x = hd 200%Z (codesOf ops)
     ∧ loggers σ' =
         (if String.eqb seen "" then fun ls => ls
          else updateContext (ctxLogger r) (typedField ParseFloat headerName valType seen))
           (updateContext (ctxLogger r)
              (Str fieldKey
                 (DumpResponse
                    (mkResponseLog r (Code x) (Body x) (WriteSubset (SourceHeader x)))))
              (loggers σ))).
Proof.
  split; [reflexivity|]. split; [by intros [|p] σ|].
  intros. subst σ' x seen.
  unfold DelResponseHeaderHandler, ResponseHeaderHandler, DumpResponseHandler.
  pose proof (NewRespProxyWriter_host σ) as Hnew.
  destruct (NewRespProxyWriter WHost σ) as [nw σ1].
  destruct Hnew as (-> & Hp & Hh & Hl & Hlen1).
  rewrite (withProxy_pair _ _ σ1 newProxy Hp).
  set (σd := putPair _ (delHeader delName _) σ1).
  assert (proxies σd !! length (proxies σ) = Some (delHeader delName (newProxy, host σ1)).1)
    as Hpd by (by eapply proxies_putPair).
  cbn [NewRespProxyWriter]. unfold respond. cbn [fst snd].
  rewrite (runOps_pair _ ops σd _ Hpd).
  set (xh := fold_left stepPair ops _).
  assert (proxies (putPair (length (proxies σ)) xh σd) !! length (proxies σ) = Some xh.1)
    as Hpx by (by eapply proxies_putPair).
  assert (∀ u τ, proxyAt (length (proxies σ)) (UpdateContext r u τ)
                 = proxyAt (length (proxies σ)) τ) as Hat by done.
  assert (proxyAt (length (proxies σ)) (putPair (length (proxies σ)) xh σd) = xh.1) as Hx
    by (unfold proxyAt; by rewrite Hpx).
  assert (Body xh.1 = concatAll (writesOf ops)) as Hb
    by (unfold xh; by rewrite (proj1 (fold_stepPair_body _ _))).
  assert (Code xh.1 = hd 200%Z (codesOf ops)) as Hc
    by (unfold xh; by rewrite fold_stepPair_code).
  assert (loggers (putPair (length (proxies σ)) xh σd) = loggers σ) as Hlog.
  { rewrite (proj1 (putPair_frame _ _ _)). unfold σd.
    by rewrite (proj1 (putPair_frame _ _ _)). }
  assert (length (proxies (putPair (length (proxies σ)) xh σd)) = S (length (proxies σ)))
    as Hlen.
  { rewrite (proj2 (putPair_frame _ _ _)). unfold σd.
    by rewrite (proj2 (putPair_frame _ _ _)). }
  rewrite !Hat, !Hx.
  destruct (String.eqb (HGet (SourceHeader xh.1) headerName) "") eqn:Hseen;
    cbn [fst];
    rewrite ?Hat, ?Hx, ?loggers_UpdateContext, ?proxies_UpdateContext, ?Hlog, ?Hseen;
    done.
Qed.

(** ** The chain *)

Lemma stages_fold_Append (ss : list Stage) (c : Chain) :
  stages (fold_left Append ss c) = (stages c ++ ss)%list.
Proof.
  revert c. induction ss as [|s ss IH]; intros c; simpl.
  - by rewrite app_nil_r.
  - rewrite IH. simpl. by rewrite <- app_assoc.
Qed.

(** C3: the handler made by [Then] from the chain built by appending
    [s1 .. sn] is [s1 (s2 (... (sn h)))]; for stages with code before and
    after the delegation, the code before runs in the order of
    registration, then the final handler, then the code after in the
    reverse order; and the chain with no stage gives [h] itself. *)
Theorem C3_chain_nesting :
  (∀ (ss : list Stage) (h : Handler),
     Then (fold_left Append ss NewChain) h = foldr (fun s next => s next) h ss)
  ∧ (∀ (s1 s2 s3 : Stage) (h : Handler),
     Then (Append (Append (Append NewChain s1) s2) s3) h = s1 (s2 (s3 h)))
  ∧ (∀ h : Handler, Then NewChain h = h)
  ∧ (∀ (pps : list ((World → World) * (World → World))) (h : Handler) w r σ,
     Then (fold_left Append ((fun pp => around pp.1 pp.2) <$> pps) NewChain) h w r σ =
     let '(σ', err) := h w r (fold_left (fun τ pp => pp.1 τ) pps σ) in
     (foldr (fun pp τ => pp.2 τ) σ' pps, err)).
Proof.
  assert (∀ (ss : list Stage) (h : Handler),
     Then (fold_left Append ss NewChain) h = foldr (fun s next => s next) h ss) as Hnest.
  { intros ss h. unfold Then. by rewrite stages_fold_Append. }
  split; [exact Hnest|]. split; [reflexivity|]. split; [reflexivity|].
  intros pps h w r σ. rewrite Hnest. revert σ.
  induction pps as [|[pre post] pps IH]; intros σ; simpl.
  - by destruct (h w r σ).
  - unfold around at 1. rewrite IH.
    by destruct (h w r (fold_left (fun τ pp => pp.1 τ) pps (pre σ))).
Qed.

(** ** The logger stage *)

(** [NewHandler] hands on the request with a new logger in its context:
    a copy of the base logger in a cell of its own. *)
Lemma NewHandler_installs log next w r σ :
  NewHandler log next w r σ =
  next w (mkRequest (Method r) (RequestURI r) (RemoteAddr r)
            (Some (install log (loggers σ)).1))
       (setLoggers (install log (loggers σ)).2 σ).
Proof. reflexivity. Qed.

(** ** Requests in flight together *)

Local Open Scope string_scope.

(*PART3*)
(** ** Requests side by side *)

Section CutFacts.

Variable SplitHostPort : string → option (string * string).
Variable MD5 : string → string.
Variable JSONMarshal : gmap string string → string.
Variable rangeKeys : list string → list string.
Variable DumpRequest : Request → Header → string + string.
Variable WriteSubset : Header → string.
Variable DumpResponse : ResponseLog → string.
Variable ParseFloat : string → option float.
Variable ID : Type.
Variable xidFromString : string → option ID.
Variable xidString : ID → string.
Variable xidNew : nat → ID.

(** *** Each cut is the stage of [handler.go] *)










Lemma stage_servedCuts log :
  stage <$> servedCuts SplitHostPort MD5 JSONMarshal rangeKeys DumpRequest WriteSubset
              DumpResponse ParseFloat ID xidFromString xidString xidNew log
  = stages (servedChain SplitHostPort MD5 JSONMarshal rangeKeys DumpRequest WriteSubset
              DumpResponse ParseFloat ID xidFromString xidString xidNew log).
Proof. reflexivity. Qed.

End CutFacts.

(** *** Code that keeps to one logger *)



Lemma changesOnly_trans l ls1 ls2 ls3 :
  changesOnly l ls1 ls2 → changesOnly l ls2 ls3 → changesOnly l ls1 ls3.
Proof.
  intros [H1 H1'] [H2 H2']. split; [congruence|]. intros k Hk.
  by rewrite H2', H1'.
Qed.











(** *** The stages of the chain keep to the logger of their request *)



Section CutLocal.

Variable SplitHostPort : string → option (string * string).
Variable MD5 : string → string.
Variable JSONMarshal : gmap string string → string.
Variable rangeKeys : list string → list string.
Variable DumpRequest : Request → Header → string + string.
Variable WriteSubset : Header → string.
Variable DumpResponse : ResponseLog → string.
Variable ParseFloat : string → option float.
Variable ID : Type.
Variable xidFromString : string → option ID.
Variable xidString : ID → string.
Variable xidNew : nat → ID.









End CutLocal.

(** *** One step of a request, among others and on its own *)






(** *** Going on alone *)

Lemma Then_cons s ss h : Then (mkChain (s :: ss)) h = s (Then (mkChain ss) h).
Proof. done. Qed.





(** *** The first step of a request: [NewHandler] *)




(** *** The invariant of the machine *)







Section Requests.

Variable SplitHostPort : string → option (string * string).
Variable MD5 : string → string.
Variable JSONMarshal : gmap string string → string.
Variable rangeKeys : list string → list string.
Variable DumpRequest : Request → Header → string + string.
Variable WriteSubset : Header → string.
Variable DumpResponse : ResponseLog → string.
Variable ParseFloat : string → option float.
Variable ID : Type.
Variable xidFromString : string → option ID.
Variable xidString : ID → string.
Variable xidNew : nat → ID.


End Requests.


(** The two requests of the schedule, step by step in turn: what each has
    logged when both have returned. *)
Example interleaved_requests_example :
  heap (run SampleClients.turns
          (start [baseLogger] SampleClients.served
             [SampleClients.clientA; SampleClients.clientB]))
  = [ baseLogger;
      loggers (alone SampleClients.served SampleClients.clientA 0) !!! 0%nat;
      loggers (alone SampleClients.served SampleClients.clientB 0) !!! 0%nat ]
  ∧ (λ c : Context, c.*1) <$>
      heap (run SampleClients.turns
              (start [baseLogger] SampleClients.served
                 [SampleClients.clientA; SampleClients.clientB]))
    = [ ["service"];
        ["service"; "server"; "User-Agent"; "req_id"; "request"; "response"; "Cost"];
        ["service"; "server"; "Referer"; "req_id"; "request"; "response"] ].
Proof. vm_compute. split; reflexivity. Qed.

(** Were the one logger of the process put in every request's context,
    the second request would return with the fields of the first in its
    logger, and the base logger would not be as it was. *)
Example shared_logger_is_seen :
  let s := run SampleClients.turns
             (start [baseLogger] SampleClients.sharing
                [SampleClients.clientA; SampleClients.clientB]) in
  (ctxLogger ∘ request) <$> threads s = [Some 0%nat; Some 0%nat]
  ∧ (λ c : Context, c.*1) <$> heap s
    = [ ["service"; "server"; "server"; "User-Agent"; "Referer"; "req_id"; "req_id";
         "request"; "request"; "response"; "response"; "Cost" ] ].
Proof. vm_compute. split; reflexivity. Qed.

(** * Further properties *)

(** ** [url.QueryEscape] and [url.QueryUnescape] *)

Lemma ContainsByte_app a b c : ContainsByte (a +:+ b) c = ContainsByte a c || ContainsByte b c.
Proof.
  induction a as [|x a IH]; [done|].
  rewrite append_cons. simpl. by rewrite IH, orb_assoc.
Qed.

Lemma upperhex_spec_nat (k : nat) :
  (k < 16)%nat →
  ishex (upperhex (N.of_nat k)) = true ∧ unhex (upperhex (N.of_nat k)) = N.of_nat k
  ∧ ∀ x, structural x → Ascii.eqb (upperhex (N.of_nat k)) x = false.
Proof.
  intros Hk.
  do 16 (destruct k as [|k];
         [repeat split; try (vm_compute; reflexivity);
          intros x [-> | [-> | [-> | ->]]]; vm_compute; reflexivity|]).
  lia.
Qed.

Lemma upperhex_spec n :
  (n < 16)%N →
  ishex (upperhex n) = true ∧ unhex (upperhex n) = n
  ∧ ∀ x, structural x → Ascii.eqb (upperhex n) x = false.
Proof.
  intros Hn. rewrite <- (N2Nat.id n). apply upperhex_spec_nat. lia.
Qed.

Lemma unreserved_not_structural c x :
  shouldEscape c = false → structural x ∨ x = "%"%char ∨ x = "+"%char →
  Ascii.eqb c x = false.
Proof.
  intros Hc Hx. destruct (Ascii.eqb_spec c x) as [->|]; [|done].
  destruct Hx as [[-> | [-> | [-> | ->]]]|[->| ->]]; vm_compute in Hc; discriminate.
Qed.

Lemma ascii_split c :
  (N_of_ascii c / 16 < 16)%N ∧ (N_of_ascii c mod 16 < 16)%N
  ∧ ascii_of_N (N_of_ascii c / 16 * 16 + N_of_ascii c mod 16) = c.
Proof.
  pose proof (N_ascii_bounded c) as Hb. split; [|split].
  - apply N.Div0.div_lt_upper_bound. lia.
  - apply N.mod_lt. lia.
  - rewrite N.mul_comm, <- N.div_mod by lia. apply ascii_N_embedding.
Qed.

(** [url.QueryUnescape] undoes [url.QueryEscape]. *)
Lemma QueryUnescape_QueryEscape s : QueryUnescape (QueryEscape s) = Some s.
Proof.
  induction s as [|c s IH]; [done|]. cbn [QueryEscape].
  destruct (Ascii.eqb_spec c " ") as [->|Hsp].
  { cbn [QueryUnescape]. by rewrite IH. }
  destruct (shouldEscape c) eqn:Hesc.
  - destruct (ascii_split c) as (Hhi & Hlo & Hc).
    destruct (upperhex_spec _ Hhi) as (Hh1 & Hu1 & _).
    destruct (upperhex_spec _ Hlo) as (Hh2 & Hu2 & _).
    cbn [QueryUnescape]. change (Ascii.eqb "%" "%") with true. cbv iota.
    by rewrite Hh1, Hh2, Hu1, Hu2, Hc, IH.
  - cbn [QueryUnescape].
    rewrite (unreserved_not_structural c "%") by auto.
    rewrite (unreserved_not_structural c "+") by auto. by rewrite IH.
Qed.

(** [url.QueryEscape] writes none of the structural bytes. *)
Lemma QueryEscape_clean s x : structural x → ContainsByte (QueryEscape s) x = false.
Proof.
  intros Hx. induction s as [|c s IH]; [done|]. cbn [QueryEscape].
  destruct (Ascii.eqb_spec c " ") as [->|Hsp].
  { cbn [ContainsByte]. rewrite IH.
    destruct Hx as [-> | [-> | [-> | ->]]]; reflexivity. }
  destruct (shouldEscape c) eqn:Hesc.
  - destruct (ascii_split c) as (Hhi & Hlo & _).
    destruct (upperhex_spec _ Hhi) as (_ & _ & H1).
    destruct (upperhex_spec _ Hlo) as (_ & _ & H2).
    cbn [ContainsByte]. rewrite IH, (H1 x Hx), (H2 x Hx).
    destruct Hx as [-> | [-> | [-> | ->]]]; reflexivity.
  - cbn [ContainsByte]. rewrite IH. by rewrite (unreserved_not_structural c x) by auto.
Qed.

(** X1: [url.QueryUnescape] undoes [url.QueryEscape] on every byte string,
    and what [url.QueryEscape] writes holds none of ["&"], ["="], [";"]
    and the carriage return. *)
Theorem QueryEscape_roundtrip (s : string) :
  QueryUnescape (QueryEscape s) = Some s
  ∧ ∀ x, structural x → ContainsByte (QueryEscape s) x = false.
Proof. split; [apply QueryUnescape_QueryEscape | intros x; apply QueryEscape_clean]. Qed.

(** ** [strings.Split], [strings.Cut] and [strings.Join] *)

Lemma length_append s t :
  String.length (s +:+ t) = (String.length s + String.length t)%nat.
Proof. induction s as [|a s IH]; [done|]. rewrite append_cons. simpl. by rewrite IH. Qed.

Lemma prefix_cons a s1 b s2 :
  String.prefix (String a s1) (String b s2) =
  if ascii_dec a b then String.prefix s1 s2 else false.
Proof. reflexivity. Qed.

Lemma prefix_true s1 s2 : String.prefix s1 s2 = true → ∃ rest, s2 = s1 +:+ rest.
Proof.
  revert s2. induction s1 as [|a s1 IH]; intros s2 H; [by exists s2|].
  destruct s2 as [|b s2]; [done|]. rewrite prefix_cons in H.
  destruct (ascii_dec a b) as [->|]; [|done].
  destruct (IH s2 H) as [rest ->]. by exists rest.
Qed.

Lemma Split_go_skip sep x rest :
  Split_go sep (String.length x) (x +:+ rest) = Split_go sep 0 rest.
Proof. induction x as [|c x IH]; [reflexivity|]. rewrite append_cons. simpl. exact IH. Qed.

Lemma Split_go_nonempty sep k s : Split_go sep k s ≠ [].
Proof.
  revert k. induction s as [|c s IH]; intros k; [done|]. cbn [Split_go].
  destruct k as [|k]; [|apply IH].
  destruct (String.prefix sep (String c s)); [done|].
  by destruct (Split_go sep 0 s).
Qed.

Lemma Join_cons sep p q qs :
  Join (p :: q :: qs) sep = p +:+ sep +:+ Join (q :: qs) sep.
Proof. reflexivity. Qed.

(** Joining the parts of a split gives the text back. *)
Lemma Join_Split sep s : sep ≠ "" → Join (Split s sep) sep = s.
Proof.
  intros Hsep. remember (String.length s) as n eqn:Hn.
  revert s Hn. induction n as [n IH] using lt_wf_ind. intros s Hn.
  destruct s as [|c s]; [done|]. unfold Split. cbn [Split_go].
  destruct (String.prefix sep (String c s)) eqn:Hp.
  - destruct (prefix_true _ _ Hp) as [rest Hrest].
    destruct sep as [|a sep]; [done|]. rewrite append_cons in Hrest.
    injection Hrest as <- ->.
    replace (String.length (String c sep) - 1)%nat with (String.length sep)
      by (simpl; lia).
    rewrite Split_go_skip. fold (Split rest (String c sep)).
    pose proof (Split_go_nonempty (String c sep) 0 rest) as Hne.
    assert (String.length rest < n)%nat as Hlt
      by (subst n; simpl; rewrite length_append; lia).
    pose proof (IH (String.length rest) Hlt rest eq_refl) as IHrest.
    unfold Split in *. destruct (Split_go (String c sep) 0 rest) as [|q qs]; [done|].
    rewrite Join_cons. by rewrite IHrest.
  - pose proof (Split_go_nonempty sep 0 s) as Hne.
    assert (String.length s < n)%nat as Hlt by (subst n; simpl; lia).
    pose proof (IH (String.length s) Hlt s eq_refl) as IHs. unfold Split in IHs.
    destruct (Split_go sep 0 s) as [|p ps]; [done|].
    destruct ps as [|q qs].
    + simpl in *. by rewrite IHs.
    + rewrite Join_cons in *. rewrite append_cons. by rewrite IHs.
Qed.

Lemma Cut_app a b c :
  ContainsByte a c = false → Cut (a +:+ String c b) c = (a, b, true).
Proof.
  induction a as [|x a IH]; intros Ha.
  - simpl. by rewrite Ascii.eqb_refl.
  - simpl in Ha. apply orb_false_iff in Ha as [Hx Ha].
    rewrite append_cons. cbn [Cut]. rewrite Hx, (IH Ha). done.
Qed.

Lemma prefix_amp x s : String.prefix "&" (String x s) = Ascii.eqb x "&".
Proof.
  rewrite prefix_cons. destruct (ascii_dec "&" x) as [<-|Hne].
  - by destruct s.
  - symmetry. apply Ascii.eqb_neq. congruence.
Qed.

Lemma Split_amp_one a : ContainsByte a "&" = false → Split a "&" = [a].
Proof.
  induction a as [|x a IH]; intros Ha; [done|].
  simpl in Ha. apply orb_false_iff in Ha as [Hx Ha].
  unfold Split in *. cbn [Split_go]. rewrite prefix_amp, Hx, (IH Ha). done.
Qed.

Lemma Split_amp_app a b :
  ContainsByte a "&" = false → Split (a +:+ String "&" b) "&" = a :: Split b "&".
Proof.
  induction a as [|x a IH]; intros Ha.
  - change ("" +:+ String "&" b) with (String "&" b).
    unfold Split. cbn [Split_go]. rewrite prefix_amp. reflexivity.
  - simpl in Ha. apply orb_false_iff in Ha as [Hx Ha].
    rewrite append_cons. unfold Split in *. cbn [Split_go].
    rewrite prefix_amp, Hx, (IH Ha). done.
Qed.

(** Splitting a join at ["&"] gives the pieces back when none holds an
    ["&"]. *)
Lemma Split_Join_amp p ps :
  Forall (fun q => ContainsByte q "&" = false) (p :: ps) →
  Split (Join (p :: ps) "&") "&" = p :: ps.
Proof.
  revert p. induction ps as [|q ps IH]; intros p Hall.
  - apply Split_amp_one. by apply Forall_inv in Hall.
  - rewrite Join_cons. apply Forall_cons in Hall as [Hp Hall].
    change ("&" +:+ Join (q :: ps) "&") with (String "&" (Join (q :: ps) "&")).
    rewrite Split_amp_app by done. by rewrite IH.
Qed.

(** X2: [strings.Join(strings.Split(s, sep), sep)] is [s] for a non-empty
    separator: the pieces [hashPostRequest] cuts a dump into at the blank
    line, and [parseQuery] cuts a body into at ["&"], lose no byte. *)
Theorem Split_then_Join (sep s : string) :
  sep ≠ "" → Join (Split s sep) sep = s.
Proof. apply Join_Split. Qed.

Lemma Split_then_Join_witness :
  Join (Split Sample.smallDump CRLFCRLF) CRLFCRLF = Sample.smallDump.
Proof. apply Split_then_Join. discriminate. Defined.

(** ** [url.ParseQuery] after [Values.Encode] *)

Lemma piece_not_empty a c b : String.eqb (a +:+ String c b) "" = false.
Proof. by destruct a. Qed.

Lemma parsePiece_piece (m : Values) k x :
  m !! k = None →
  parsePiece (m, None) (QueryEscape k +:+ "=" +:+ QueryEscape x) = (<[k := [x]]> m, None).
Proof.
  intros Hk. unfold parsePiece.
  change ("=" +:+ QueryEscape x) with (String "=" (QueryEscape x)).
  rewrite ContainsByte_app. cbn [ContainsByte].
  rewrite !QueryEscape_clean by (unfold structural; auto).
  rewrite piece_not_empty. cbn [orb Ascii.eqb]. 
  rewrite Cut_app by (apply QueryEscape_clean; unfold structural; auto).
  rewrite !QueryUnescape_QueryEscape, Hk. done.
Qed.

Lemma fold_parsePiece (f : string → string) ks (m : Values) :
  NoDup ks → (∀ k, k ∈ ks → m !! k = None) →
  fold_left parsePiece ((fun k => QueryEscape k +:+ "=" +:+ QueryEscape (f k)) <$> ks)
    (m, None)
  = (fold_left (fun m k => Set_ m k (f k)) ks m, None).
Proof.
  revert m. induction ks as [|k ks IH]; intros m Hnd Hm; [done|].
  apply NoDup_cons in Hnd as [Hk Hnd]. rewrite fmap_cons. cbn [fold_left].
  rewrite parsePiece_piece by (apply Hm; by left).
  apply IH; [done|]. intros j Hj. unfold Set_.
  rewrite lookup_insert_ne by (intros ->; done). apply Hm. by right.
Qed.

(** A map with one value per key is read back from its encoding. *)
Lemma ParseQuery_Encode (v : Values) :
  (∀ k vs, v !! k = Some vs → ∃ x, vs = [x]) →
  ParseQuery (Encode v) = (v, None).
Proof.
  intros Hone. unfold ParseQuery, Encode. rewrite encodePieces_single by done.
  assert (fold_left (fun m k => Set_ m k (Get v k)) (sortedKeys v) ∅ = v) as Hfold.
  { apply map_eq. intros k. destruct (v !! k) as [vs|] eqn:Hk.
    - pose proof (lookup_fold_Set_in (fun j => j) (Get v) (sortedKeys v) ∅ k) as Hl.
      rewrite list_fmap_id in Hl. rewrite Hl.
      + destruct (Hone k vs Hk) as [x ->]. unfold Get. by rewrite Hk.
      + apply NoDup_sortedKeys.
      + apply elem_of_sortedKeys. by eexists.
    - rewrite (lookup_fold_Set_notin (fun j => j) (Get v)); [apply lookup_empty|].
      rewrite list_fmap_id. intros Hin%elem_of_sortedKeys. rewrite Hk in Hin.
      by destruct Hin. }
  set (piece := fun k => QueryEscape k +:+ "=" +:+ QueryEscape (Get v k)).
  assert (∀ ks, Forall (fun q => ContainsByte q "&" = false) (piece <$> ks)) as Hclean.
  { intros ks. apply Forall_fmap, Forall_forall. intros j _. unfold piece. simpl.
    change ("=" +:+ QueryEscape (Get v j)) with (String "=" (QueryEscape (Get v j))).
    rewrite ContainsByte_app. cbn [ContainsByte].
    by rewrite !QueryEscape_clean by (unfold structural; auto). }
  pose proof (fold_parsePiece (Get v) (sortedKeys v) ∅ (NoDup_sortedKeys v)
                (fun k _ => lookup_empty k)) as Hparse.
  fold piece in Hparse. rewrite Hfold in Hparse.
  destruct (sortedKeys v) as [|k ks] eqn:Hks.
  - simpl in *. by rewrite <- Hfold.
  - pose proof (Split_Join_amp (piece k) (fmap (M:=list) piece ks) (Hclean (k :: ks)))
      as Hsp.
    rewrite fmap_cons in Hparse |- *. rewrite Hsp. exact Hparse.
Qed.

Lemma smallForm_single k vs :
  ({[ "a" := ["1"]; "b" := ["x~y"] ]} : Values) !! k = Some vs → ∃ x, vs = [x].
Proof.
  intros Hk. apply elem_of_map_to_list in Hk.
  replace (map_to_list _) with [("a", ["1"]); ("b", ["x~y"])] in Hk
    by (vm_compute; reflexivity).
  repeat (apply elem_of_cons in Hk as [[= -> ->]|Hk]; [by eexists|]).
  by apply elem_of_nil in Hk.
Qed.

(** X3: [url.ParseQuery] reads back, without error, the map that
    [Values.Encode] wrote, when every key of the map has one value (as in
    the map [hashPostRequest] builds with [Set]). *)
Theorem ParseQuery_after_Encode (v : Values) :
  (∀ k vs, v !! k = Some vs → ∃ x, vs = [x]) →
  ParseQuery (Encode v) = (v, None).
Proof. apply ParseQuery_Encode. Qed.

Lemma ParseQuery_after_Encode_witness :
  ParseQuery (Encode {[ "a" := ["1"]; "b" := ["x~y"] ]})
  = ({[ "a" := ["1"]; "b" := ["x~y"] ]}, None).
Proof. apply ParseQuery_after_Encode. exact smallForm_single. Defined.

(** ** Splitting at the blank line *)

Lemma ContainsByte_Join pieces sep x :
  Forall (fun p => ContainsByte p x = false) pieces → ContainsByte sep x = false →
  ContainsByte (Join pieces sep) x = false.
Proof.
  intros Hall Hsep. induction pieces as [|p [|q qs] IH].
  - done.
  - by apply Forall_inv in Hall.
  - apply Forall_cons in Hall as [Hp Hall]. rewrite Join_cons, !ContainsByte_app.
    by rewrite Hp, Hsep, (IH Hall).
Qed.

(** [Values.Encode] writes no carriage return. *)
Lemma Encode_no_CR (v : Values) : ContainsByte (Encode v) CR = false.
Proof.
  unfold Encode. apply ContainsByte_Join; [|done].
  apply Forall_forall. intros p Hp. unfold encodePieces in Hp.
  apply list_elem_of_bind in Hp as (k & Hp & _).
  apply list_elem_of_fmap in Hp as (x & -> & _).
  change ("=" +:+ QueryEscape x) with (String "=" (QueryEscape x)).
  rewrite ContainsByte_app. cbn [ContainsByte].
  by rewrite !QueryEscape_clean by (unfold structural; auto).
Qed.

Lemma Split_blank_one s : ContainsByte s CR = false → Split s CRLFCRLF = [s].
Proof.
  induction s as [|c s IH]; intros Hs; [done|].
  simpl in Hs. apply orb_false_iff in Hs as [Hc Hs].
  unfold Split in *. cbn [Split_go]. unfold CRLFCRLF at 1. rewrite prefix_cons.
  destruct (ascii_dec CR c) as [<-|_]; [by rewrite Ascii.eqb_refl in Hc|].
  by rewrite (IH Hs).
Qed.

Lemma prefix_nil s : String.prefix "" s = true.
Proof. by destruct s. Qed.

(** Whether a text starts with the blank line is settled by its first four
    bytes. *)
Lemma prefix_blank_front c p x y :
  String.prefix CRLFCRLF (String c (p +:+ CRLFCRLF +:+ x))
  = String.prefix CRLFCRLF (String c (p +:+ CRLFCRLF +:+ y)).
Proof.
  unfold CRLFCRLF.
  destruct p as [|a [|b [|d p]]]; rewrite ?append_cons;
    change ("" +:+ ?t) with t; rewrite !prefix_cons;
    repeat (destruct (ascii_dec _ _); [|reflexivity]); rewrite ?prefix_nil; reflexivity.
Qed.

Lemma Split_blank_head body :
  Split (CRLFCRLF +:+ body) CRLFCRLF = "" :: Split body CRLFCRLF.
Proof.
  unfold Split, CRLFCRLF. rewrite !append_cons. change ("" +:+ body) with body.
  cbn [Split_go]. rewrite !prefix_cons.
  repeat (destruct (ascii_dec _ _); [|done]). rewrite prefix_nil. reflexivity.
Qed.

(** A dump that splits in two still does, with the same first part, when
    its second part is replaced by a text without carriage return. *)
Lemma Split_blank_rebody s head body body' :
  Split s CRLFCRLF = [head; body] →
  ContainsByte body' CR = false →
  Split (head +:+ CRLFCRLF +:+ body') CRLFCRLF = [head; body'].
Proof.
  revert head. induction s as [|c s IH]; intros head Hs Hb; [done|].
  unfold Split in Hs. cbn [Split_go] in Hs.
  destruct (String.prefix CRLFCRLF (String c s)) eqn:Hp.
  - injection Hs as <- _.
    change ("" +:+ CRLFCRLF +:+ body') with (CRLFCRLF +:+ body').
    by rewrite Split_blank_head, Split_blank_one.
  - pose proof (Split_go_nonempty CRLFCRLF 0 s) as Hne.
    destruct (Split_go CRLFCRLF 0 s) as [|p ps] eqn:Hsp; [done|].
    injection Hs as <- ->.
    assert (s = p +:+ CRLFCRLF +:+ body) as ->.
    { rewrite <- (Join_Split CRLFCRLF s) by done. unfold Split. by rewrite Hsp. }
    rewrite append_cons. unfold Split. cbn [Split_go].
    rewrite (prefix_blank_front c p body' body), Hp.
    fold (Split (p +:+ CRLFCRLF +:+ body') CRLFCRLF). by rewrite (IH p Hsp Hb).
Qed.

(** ** The redactor on its own output *)

Section Reparse.

Variable MD5 : string → string.
Variable JSONMarshal : gmap string string → string.
Variable rangeKeys : list string → list string.

Lemma redacted_bounded (postData : Values) :
  (∀ s, (String.length (MD5 s) ≤ 1000)%nat) →
  ∀ k, (String.length (Get (redacted MD5 rangeKeys postData) k) ≤ 1000)%nat.
Proof.
  intros Hmd5. unfold redacted. generalize (visited rangeKeys postData). intros ks.
  assert (∀ k, (String.length (Get (∅ : Values) k) ≤ 1000)%nat) as Hm
    by (intros k; unfold Get; rewrite lookup_empty; simpl; lia).
  revert Hm. generalize (∅ : Values).
  induction ks as [|a ks IH]; intros m Hm; cbn [fold_left]; [done|].
  apply IH. intros k. unfold Get, Set_. rewrite lookup_insert.
  case_decide; [|apply Hm]. cbn [default hd]. unfold payload, oversized.
  destruct (1000 <? _)%nat eqn:Hlt; [apply Hmd5 | by apply Nat.ltb_ge].
Qed.

(** The text written on the success path splits again at the blank line,
    and its second part is read back as the map the loop built. *)
Lemma hashPostRequest_reparse store req head body postData :
  Split req CRLFCRLF = [head; body] →
  ParseQuery body = (postData, None) →
  let out := (hashPostRequest MD5 JSONMarshal rangeKeys store req).1 in
  out = head +:+ CRLFCRLF +:+ Encode (redacted MD5 rangeKeys postData)
  ∧ Split out CRLFCRLF = [head; Encode (redacted MD5 rangeKeys postData)]
  ∧ ParseQuery (Encode (redacted MD5 rangeKeys postData))
    = (redacted MD5 rangeKeys postData, None).
Proof.
  intros Hsplit Hparse out. subst out.
  rewrite (hashPostRequest_parsed MD5 JSONMarshal rangeKeys postData store req head body)
    by done.
  cbn [fst]. split; [done|]. split.
  - apply (Split_blank_rebody req head body); [done | apply Encode_no_CR].
  - apply ParseQuery_Encode. apply redacted_single.
Qed.

Lemma single_hd (v : Values) :
  (∀ k vs, v !! k = Some vs → ∃ x, vs = [x]) → (fun vs => [hd "" vs]) <$> v = v.
Proof.
  intros Hone. apply map_eq. intros k. rewrite lookup_fmap.
  destruct (v !! k) as [vs|] eqn:Hk; [|done]. by destruct (Hone k vs Hk) as [x ->].
Qed.

(** X4: when no digest of [goutil.MD5] is over 1000 bytes,
    [hashPostRequest] run on its own result gives that result again and
    writes nothing to the store, whatever the first input was. *)
Theorem hashPostRequest_idempotent store store2 req :
  (∀ l, rangeKeys l ≡ₚ l) →
  (∀ s, (String.length (MD5 s) ≤ 1000)%nat) →
  hashPostRequest MD5 JSONMarshal rangeKeys store2
    (hashPostRequest MD5 JSONMarshal rangeKeys store req).1
  = ((hashPostRequest MD5 JSONMarshal rangeKeys store req).1, store2).
Proof.
  intros Hperm Hmd5.
  destruct (Split req CRLFCRLF) as [|head [|body [|x l]]] eqn:Hsplit;
    try (unfold hashPostRequest; rewrite Hsplit; cbn [fst]; by rewrite Hsplit).
  destruct (ParseQuery body) as [postData [e|]] eqn:Hparse.
  { unfold hashPostRequest. rewrite Hsplit, Hparse. cbn [fst]. by rewrite Hsplit, Hparse. }
  destruct (hashPostRequest_reparse store req head body postData Hsplit Hparse)
    as (Hout & Hsplit2 & Hparse2).
  rewrite (hashPostRequest_parsed MD5 JSONMarshal rangeKeys _ store2 _ _ _ Hsplit2 Hparse2).
  destruct (redacted_small MD5 rangeKeys Hperm (redacted MD5 rangeKeys postData))
    as [Hred Hent].
  { intros k _. unfold oversized. apply Nat.ltb_ge. by apply redacted_bounded. }
  rewrite Hred, Hent, single_hd by apply redacted_single.
  rewrite <- Hout. f_equal. destruct store2; simpl; by rewrite ?app_nil_r.
Qed.

End Reparse.

(** X5: on the path of [hashPostRequest] where the dump splits in two and
    the body parses, the text returned splits in two at the blank line
    again, with the same first part byte for byte, and its second part
    parses without error to the map the loop built, whatever order the
    loop took. *)
Theorem redacted_dump_parses_back
    (MD5 : string → string) (JSONMarshal : gmap string string → string)
    (rangeKeys : list string → list string) (store : option (list string))
    (req head body : string) (postData : Values) :
  Split req CRLFCRLF = [head; body] →
  ParseQuery body = (postData, None) →
  ∃ body' urlVal,
    Split (hashPostRequest MD5 JSONMarshal rangeKeys store req).1 CRLFCRLF = [head; body']
    ∧ ParseQuery body' = (urlVal, None)
    ∧ body' = Encode urlVal
    ∧ urlVal = redacted MD5 rangeKeys postData.
Proof.
  intros Hsplit Hparse.
  destruct (hashPostRequest_reparse MD5 JSONMarshal rangeKeys store req head body postData
              Hsplit Hparse) as (_ & Hs & Hp).
  by eexists _, _.
Qed.

Lemma redacted_dump_parses_back_witness :
  ∃ body' urlVal,
    Split (hashPostRequest Sample.MD5 Sample.JSONMarshal Sample.rangeKeys (Some [])
             Sample.bigDump).1 CRLFCRLF = [Sample.bigHead; body']
    ∧ ParseQuery body' = (urlVal, None)
    ∧ body' = Encode urlVal
    ∧ urlVal = redacted Sample.MD5 Sample.rangeKeys {[ "k" := [Sample.bigValue] ]}.
Proof.
  destruct bigDump_parsed as (Hsplit & Hparse & _).
  exact (redacted_dump_parses_back Sample.MD5 Sample.JSONMarshal Sample.rangeKeys (Some [])
           _ _ _ _ Hsplit Hparse).
Defined.

Lemma Sample_MD5_short s : (String.length (Sample.MD5 s) ≤ 1000)%nat.
Proof. unfold Sample.MD5. simpl. lia. Qed.

Lemma hashPostRequest_idempotent_witness :
  hashPostRequest Sample.MD5 Sample.JSONMarshal Sample.rangeKeys (Some ["line"])
    (hashPostRequest Sample.MD5 Sample.JSONMarshal Sample.rangeKeys (Some [])
       Sample.bigDump).1
  = ((hashPostRequest Sample.MD5 Sample.JSONMarshal Sample.rangeKeys (Some [])
        Sample.bigDump).1, Some ["line"]).
Proof.
  apply hashPostRequest_idempotent; [exact Sample_rangeKeys_perm | exact Sample_MD5_short].
Defined.

(** X6: when no digest of [goutil.MD5] is over 1000 bytes, no value of the
    body [hashPostRequest] writes is over 1000 bytes: the body parses to a
    map all of whose values are within the bound, also when a field is
    named [md5-j] for an oversized field [j]. *)
Theorem logged_values_bounded
    (MD5 : string → string) (JSONMarshal : gmap string string → string)
    (rangeKeys : list string → list string) (store : option (list string))
    (req head body : string) (postData : Values) :
  (∀ s, (String.length (MD5 s) ≤ 1000)%nat) →
  Split req CRLFCRLF = [head; body] →
  ParseQuery body = (postData, None) →
  ∃ body' urlVal,
    Split (hashPostRequest MD5 JSONMarshal rangeKeys store req).1 CRLFCRLF = [head; body']
    ∧ ParseQuery body' = (urlVal, None)
    ∧ ∀ k vs, urlVal !! k = Some vs →
        Forall (fun x => (String.length x ≤ 1000)%nat) vs.
Proof.
  intros Hmd5 Hsplit Hparse.
  destruct (hashPostRequest_reparse MD5 JSONMarshal rangeKeys store req head body postData
              Hsplit Hparse) as (_ & Hs & Hp).
  eexists _, _. split; [exact Hs|]. split; [exact Hp|].
  intros k vs Hk. destruct (redacted_single _ _ _ _ _ Hk) as [x ->].
  apply Forall_singleton.
  pose proof (redacted_bounded MD5 rangeKeys postData Hmd5 k) as Hb.
  unfold Get in Hb. by rewrite Hk in Hb.
Qed.

Lemma logged_values_bounded_witness :
  ∃ body' urlVal,
    Split (hashPostRequest Sample.MD5 Sample.JSONMarshal Sample.rangeKeys (Some [])
             Sample.bigDump).1 CRLFCRLF = [Sample.bigHead; body']
    ∧ ParseQuery body' = (urlVal, None)
    ∧ ∀ k vs, urlVal !! k = Some vs →
        Forall (fun x => (String.length x ≤ 1000)%nat) vs.
Proof.
  destruct bigDump_parsed as (Hsplit & Hparse & _).
  exact (logged_values_bounded Sample.MD5 Sample.JSONMarshal Sample.rangeKeys (Some [])
           _ _ _ _ Sample_MD5_short Hsplit Hparse).
Defined.

(** ** The order in which the fields are visited *)

Section Order.

Variable MD5 : string → string.
Variable JSONMarshal : gmap string string → string.
Variables rangeKeys1 rangeKeys2 : list string → list string.
Hypothesis perm1 : ∀ l, rangeKeys1 l ≡ₚ l.
Hypothesis perm2 : ∀ l, rangeKeys2 l ≡ₚ l.
Variable postData : Values.

Lemma visited_perm : visited rangeKeys1 postData ≡ₚ visited rangeKeys2 postData.
Proof. unfold visited. by rewrite perm1, perm2. Qed.

Lemma redacted_order :
  noClash postData →
  redacted MD5 rangeKeys1 postData = redacted MD5 rangeKeys2 postData.
Proof.
  intros Hno. apply map_eq. intros x.
  destruct (decide (x ∈ target postData <$> visited rangeKeys1 postData)) as [Hin|Hout].
  - apply list_elem_of_fmap in Hin as (k & -> & Hk).
    apply (elem_of_visited rangeKeys1 perm1) in Hk.
    by rewrite !redacted_lookup.
  - unfold redacted. rewrite !lookup_fold_Set_notin; [done| |done].
    by rewrite <- visited_perm.
Qed.

Lemma entries_order :
  entries MD5 rangeKeys1 postData ≡ₚ entries MD5 rangeKeys2 postData.
Proof. unfold entries. by rewrite visited_perm. Qed.

End Order.

(** X7: for a form in which no field is named [md5-j] for an oversized
    field [j], the text [hashPostRequest] returns does not depend on the
    order in which [range] visits the fields, and the lines written to the
    store are the same up to their order. *)
Theorem redaction_order_independent
    (MD5 : string → string) (JSONMarshal : gmap string string → string)
    (rangeKeys1 rangeKeys2 : list string → list string) (store : option (list string))
    (req head body : string) (postData : Values) :
  (∀ l, rangeKeys1 l ≡ₚ l) →
  (∀ l, rangeKeys2 l ≡ₚ l) →
  Split req CRLFCRLF = [head; body] →
  ParseQuery body = (postData, None) →
  noClash postData →
  (hashPostRequest MD5 JSONMarshal rangeKeys1 store req).1
  = (hashPostRequest MD5 JSONMarshal rangeKeys2 store req).1
  ∧ match (hashPostRequest MD5 JSONMarshal rangeKeys1 store req).2,
          (hashPostRequest MD5 JSONMarshal rangeKeys2 store req).2 with
    | Some lines1, Some lines2 => lines1 ≡ₚ lines2
    | None, None => True
    | _, _ => False
    end.
Proof.
  intros H1 H2 Hsplit Hparse Hno.
  rewrite !(hashPostRequest_parsed MD5 JSONMarshal _ postData store req head body)
    by done.
  cbn [fst snd].
  rewrite (redacted_order MD5 rangeKeys1 rangeKeys2 H1 H2 postData Hno).
  split; [done|]. destruct store as [lines|]; cbn; [|done].
  by rewrite (entries_order MD5 rangeKeys1 rangeKeys2 H1 H2 postData).
Qed.

(** A form of two fields, one of them oversized: the two orders of visit
    are different lists. *)
Lemma twoForm_parsed :
  Split (Sample.bigHead +:+ CRLFCRLF +:+ "a=1&b=" +:+ Sample.bigValue) CRLFCRLF
    = [Sample.bigHead; "a=1&b=" +:+ Sample.bigValue]
  ∧ ParseQuery ("a=1&b=" +:+ Sample.bigValue)
    = ({[ "a" := ["1"]; "b" := [Sample.bigValue] ]}, None)
  ∧ visited Sample.rangeKeys {[ "a" := ["1"]; "b" := [Sample.bigValue] ]}
    = reverse (visited (fun l => l) {[ "a" := ["1"]; "b" := [Sample.bigValue] ]})
  ∧ visited Sample.rangeKeys {[ "a" := ["1"]; "b" := [Sample.bigValue] ]}
    ≠ visited (fun l => l) {[ "a" := ["1"]; "b" := [Sample.bigValue] ]}.
Proof.
  split; [vm_compute; reflexivity|]. split; [vm_compute; reflexivity|].
  split; [reflexivity|]. vm_compute. discriminate.
Qed.

Lemma twoForm_noClash : noClash {[ "a" := ["1"]; "b" := [Sample.bigValue] ]}.
Proof.
  intros j [vs Hj] _. apply elem_of_map_to_list in Hj.
  replace (map_to_list _) with [("a", ["1"]); ("b", [Sample.bigValue])] in Hj
    by (vm_compute; reflexivity).
  repeat (apply elem_of_cons in Hj as [[= -> ->]|Hj]; [vm_compute; reflexivity|]).
  by apply elem_of_nil in Hj.
Qed.

Lemma redaction_order_independent_witness :
  (hashPostRequest Sample.MD5 Sample.JSONMarshal Sample.rangeKeys (Some [])
     (Sample.bigHead +:+ CRLFCRLF +:+ "a=1&b=" +:+ Sample.bigValue)).1
  = (hashPostRequest Sample.MD5 Sample.JSONMarshal (fun l => l) (Some [])
       (Sample.bigHead +:+ CRLFCRLF +:+ "a=1&b=" +:+ Sample.bigValue)).1
  ∧ match (hashPostRequest Sample.MD5 Sample.JSONMarshal Sample.rangeKeys (Some [])
             (Sample.bigHead +:+ CRLFCRLF +:+ "a=1&b=" +:+ Sample.bigValue)).2,
          (hashPostRequest Sample.MD5 Sample.JSONMarshal (fun l => l) (Some [])
             (Sample.bigHead +:+ CRLFCRLF +:+ "a=1&b=" +:+ Sample.bigValue)).2 with
    | Some lines1, Some lines2 => lines1 ≡ₚ lines2
    | None, None => True
    | _, _ => False
    end.
Proof.
  destruct twoForm_parsed as (Hsplit & Hparse & _).
  exact (redaction_order_independent Sample.MD5 Sample.JSONMarshal Sample.rangeKeys
           (fun l => l) (Some []) _ _ _ _ Sample_rangeKeys_perm (fun l => reflexivity l)
           Hsplit Hparse twoForm_noClash).
Defined.

(** With a field named [md5-a] beside an oversized field [a] the order of
    the visit does show in the text returned. *)
Example order_shows_on_clash :
  let req := Sample.bigHead +:+ CRLFCRLF +:+ "a=" +:+ Sample.bigValue +:+ "&md5-a=x" in
  (hashPostRequest Sample.MD5 Sample.JSONMarshal (fun l => l) None req).1
  ≠ (hashPostRequest Sample.MD5 Sample.JSONMarshal Sample.rangeKeys None req).1.
Proof. vm_compute. discriminate. Qed.

(** ** A semicolon in the body *)

(** Once [parseQuery] has met an error, the pieces after it keep one. *)
Lemma parsePiece_sticky m e p : ∃ m' e', parsePiece (m, Some e) p = (m', Some e').
Proof.
  unfold parsePiece. destruct (ContainsByte p ";"); [by eexists _, _|].
  destruct (String.eqb p ""); [by eexists _, _|].
  destruct (Cut p "=") as [[key value] found].
  destruct (QueryUnescape key); [|by eexists _, _].
  destruct (QueryUnescape value); by eexists _, _.
Qed.

Lemma fold_parsePiece_sticky ps m e :
  ∃ m' e', fold_left parsePiece ps (m, Some e) = (m', Some e').
Proof.
  revert m e. induction ps as [|p ps IH]; intros m e; cbn [fold_left]; [by eexists _, _|].
  destruct (parsePiece_sticky m e p) as (m' & e' & ->). apply IH.
Qed.

Lemma fold_parsePiece_semicolon ps st :
  Exists (fun p => ContainsByte p ";" = true) ps →
  (fold_left parsePiece ps st).2 ≠ None.
Proof.
  revert st. induction ps as [|p ps IH]; intros [m err] Hex; [by apply Exists_nil in Hex|].
  cbn [fold_left]. apply Exists_cons in Hex as [Hp|Hex]; [|by apply IH].
  unfold parsePiece at 2. rewrite Hp.
  by destruct (fold_parsePiece_sticky ps m SemicolonError) as (m' & e' & ->).
Qed.

Lemma ParseQuery_semicolon_fails body :
  ContainsByte body ";" = true → (ParseQuery body).2 ≠ None.
Proof.
  intros Hsemi. unfold ParseQuery. apply fold_parsePiece_semicolon.
  destruct (Exists_dec (fun p => ContainsByte p ";" = true) (Split body "&")) as [Hex|Hno];
    [done|].
  apply not_Exists_Forall in Hno; [|apply _].
  rewrite <- (Join_Split "&" body), ContainsByte_Join in Hsemi; [done| |done|done].
  eapply Forall_impl; [exact Hno|]. intros p Hp. simpl in Hp. by destruct (ContainsByte p ";").
Qed.

(** X8: a semicolon anywhere in the second part of the dump makes
    [url.ParseQuery] fail, whatever comes before or after it, so
    [hashPostRequest] returns the dump as it is, oversized fields and all,
    and writes nothing to the store. *)
Theorem semicolon_disables_redaction
    (MD5 : string → string) (JSONMarshal : gmap string string → string)
    (rangeKeys : list string → list string) (store : option (list string))
    (req head body : string) :
  Split req CRLFCRLF = [head; body] →
  ContainsByte body ";" = true →
  (ParseQuery body).2 ≠ None
  ∧ hashPostRequest MD5 JSONMarshal rangeKeys store req = (req, store).
Proof.
  intros Hsplit Hsemi. pose proof (ParseQuery_semicolon_fails body Hsemi) as Herr.
  split; [done|]. unfold hashPostRequest. rewrite Hsplit.
  by destruct (ParseQuery body) as [m [e|]].
Qed.

Lemma semicolon_disables_redaction_witness :
  (ParseQuery ("k=" +:+ Sample.bigValue +:+ "&a=1;b=2")).2 ≠ None
  ∧ hashPostRequest Sample.MD5 Sample.JSONMarshal Sample.rangeKeys (Some [])
      (Sample.bigDump +:+ "&a=1;b=2")
    = (Sample.bigDump +:+ "&a=1;b=2", Some []).
Proof.
  apply (semicolon_disables_redaction Sample.MD5 Sample.JSONMarshal Sample.rangeKeys
           (Some []) (Sample.bigDump +:+ "&a=1;b=2") Sample.bigHead
           ("k=" +:+ Sample.bigValue +:+ "&a=1;b=2")); vm_compute; reflexivity.
Defined.

(** ** The field stages *)

Lemma UpdateContext_nil r σ : UpdateContext r (fun c => (c ++ [])%list) σ = σ.
Proof.
  unfold UpdateContext, updateContext. destruct (ctxLogger r) as [l|].
  - rewrite list_alter_id by (intros c; apply app_nil_r). by destruct σ.
  - by destruct σ.
Qed.

Lemma UpdateContext_app r a b σ :
  UpdateContext r (fun c => (c ++ b)%list) (UpdateContext r (fun c => (c ++ a)%list) σ)
  = UpdateContext r (fun c => (c ++ (a ++ b))%list) σ.
Proof.
  unfold UpdateContext, updateContext. destruct σ as [ls rh h ps st n]. cbn.
  destruct (ctxLogger r) as [l|]; [|done]. unfold setLoggers. cbn. f_equal.
  rewrite list_alter_alter_eq. apply list_alter_ext; [|done].
  intros c _. simpl. by rewrite app_assoc.
Qed.

Section FieldStages.

Variable URLString : Request → string.
Variable SplitHostPort : string → option (string * string).

Lemma enriches_one s f :
  enriches URLString SplitHostPort s f →
  ∀ next w r σ,
    s next w r σ = next w r (UpdateContext r (fun c => (c ++ f r (reqHeader σ))%list) σ).
Proof.
  assert (∀ k v (next : Handler) w r σ,
            next w r (if String.eqb v "" then σ else UpdateContext r (Str k v) σ)
            = next w r (UpdateContext r (fun c => (c ++ present k v)%list) σ)) as Hpresent.
  { intros k v next w r σ. unfold present.
    destruct (String.eqb v ""); [by rewrite UpdateContext_nil | done]. }
  intros [k|k|k|k|k|k|name] next w r σ; try reflexivity.
  - unfold RemoteAddrHandler. destruct (SplitHostPort _) as [[h port]|]; [done|].
    by rewrite UpdateContext_nil.
  - apply Hpresent.
  - apply Hpresent.
  - apply Hpresent.
Qed.

(** X9: a chain of the field stages of [handler.go] ([URLHandler],
    [MethodHandler], [RequestHandler], [RemoteAddrHandler],
    [UserAgentHandler], [RefererHandler], [HeaderHandler]) is the final
    handler run once, on the same writer and request, in a world where the
    fields of the stages were appended to the request's logger, the field
    of the first stage first and so on in the order of the chain, and
    nothing else was touched. *)
Theorem field_stages_only_log ss flds final w r σ :
  Forall2 (enriches URLString SplitHostPort) ss flds →
  Then (mkChain ss) final w r σ
  = final w r (UpdateContext r (fun c => (c ++ fieldsOf flds r (reqHeader σ))%list) σ).
Proof.
  intros Hss. revert σ. unfold Then, fieldsOf. cbn [stages].
  induction Hss as [|s f ss flds Hs Hss IH]; intros σ; cbn [foldr].
  - by rewrite UpdateContext_nil.
  - rewrite (enriches_one s f Hs), IH, UpdateContext_app. done.
Qed.

End FieldStages.

Lemma field_stages_only_log_witness :
  Then (mkChain [MethodHandler "method";
                 RemoteAddrHandler SampleSetup.SplitHostPort "server";
                 UserAgentHandler "ua"])
    (fun _ _ σ => (σ, None)) WHost loggedRequest loggedWorld
  = (UpdateContext loggedRequest
       (fun c => (c ++ fieldsOf
                         [(fun r _ => [("method", VStr (Method r))]);
                          (fun r _ => match SampleSetup.SplitHostPort (RemoteAddr r) with
                                      | Some (host, _) => [("server", VStr host)]
                                      | None => []
                                      end);
                          (fun _ h => present "ua" (HGet h "User-Agent"))]
                         loggedRequest (reqHeader loggedWorld))%list)
       loggedWorld, None).
Proof.
  apply (field_stages_only_log SampleSetup.URLString SampleSetup.SplitHostPort
           [MethodHandler "method"; RemoteAddrHandler SampleSetup.SplitHostPort "server";
            UserAgentHandler "ua"] _ (fun _ _ σ => (σ, None)) WHost loggedRequest
           loggedWorld).
  repeat constructor.
Defined.

(** The logger of that run: the three fields, in the order of the chain. *)
Example field_stages_example :
  loggers (Then (mkChain [MethodHandler "method";
                          RemoteAddrHandler SampleSetup.SplitHostPort "server";
                          UserAgentHandler "ua"])
             (fun _ _ σ => (σ, None)) WHost loggedRequest loggedWorld).1
  = [[("service", VStr "caddy"); ("method", VStr "GET"); ("server", VStr "192.0.2.1");
      ("ua", VStr "curl")]].
Proof. vm_compute. reflexivity. Qed.

(** ** Set-up *)

Section SetupFacts.

Variable besideExe : string → string.
Variable NewFileStorePro : string → string → option string.

(** X10: [Validate] accepts what [Provision] leaves exactly when
    [split_by] was given as the empty string, ["day"] or ["hour"]; and
    [Provision] leaves a log directory and a [split_by] that are not empty,
    and a hash directory other than ["on"], as they were given. *)
Theorem Validate_after_Provision m :
  (Validate (Provision besideExe m) = None
   ↔ SplitBy m = "" ∨ SplitBy m = "day" ∨ SplitBy m = "hour")
  ∧ (LogDir m ≠ "" → LogDir (Provision besideExe m) = LogDir m)
  ∧ (SplitBy m ≠ "" → SplitBy (Provision besideExe m) = SplitBy m)
  ∧ (HashDir m ≠ "on" → HashDir (Provision besideExe m) = HashDir m).
Proof.
  split.
  - unfold Validate, Provision. cbn [SplitBy].
    destruct (String.eqb_spec (SplitBy m) "") as [->|Hne]; [by intuition|].
    destruct (String.eqb_spec (SplitBy m) "day") as [->|Hd]; [by intuition|].
    destruct (String.eqb_spec (SplitBy m) "hour") as [->|Hh]; [by intuition|].
    cbn. split; [done|]. by intros [?|[?|?]].
  - unfold Provision. cbn [LogDir SplitBy HashDir].
    repeat split; intros Hne; by apply String.eqb_neq in Hne as ->.
Qed.

(** X11: [Provision] run twice leaves what one run leaves, given that the
    paths it fills in are not themselves the values it replaces. *)
Theorem Provision_idempotent m :
  besideExe "zerolog" ≠ "" → besideExe "hashdata" ≠ "on" →
  Provision besideExe (Provision besideExe m) = Provision besideExe m.
Proof.
  intros Hz Hh. unfold Provision. cbn [LogDir SplitBy HashDir]. f_equal.
  - destruct (String.eqb_spec (LogDir m) "") as [_|Hne].
    + by apply String.eqb_neq in Hz as ->.
    + by apply String.eqb_neq in Hne as ->.
  - destruct (String.eqb_spec (SplitBy m) "") as [_|Hne]; [done|].
    by apply String.eqb_neq in Hne as ->.
  - destruct (String.eqb_spec (HashDir m) "on") as [_|Hne].
    + by apply String.eqb_neq in Hh as ->.
    + by apply String.eqb_neq in Hne as ->.
Qed.

End SetupFacts.

Lemma Provision_idempotent_witness :
  Provision SampleSetup.besideExe
    (Provision SampleSetup.besideExe (mkMiddleware "" "" "on"))
  = Provision SampleSetup.besideExe (mkMiddleware "" "" "on").
Proof. apply Provision_idempotent; discriminate. Defined.

(** X12: with a hash directory configured whose store cannot be opened,
    [ServeHTTP] leaves [c.hashStore] nil, and [DumpRequestHandler] then
    logs the request dump as it is, whatever the fields in it. *)
Theorem store_failure_logs_raw
    (besideExe : string → string) (NewFileStorePro : string → string → option string)
    (MD5 : string → string) (JSONMarshal : gmap string string → string)
    (rangeKeys : list string → list string)
    (DumpRequest : Request → Header → string + string)
    (m : Middleware) (prev : option (list string)) (err fieldKey dump : string)
    (next : Handler) (w : Writer) (r : Request) (σ : World) :
  HashDir m ≠ "" →
  besideExe "hashdata" ≠ "" →
  NewFileStorePro (HashDir (Provision besideExe m)) (SplitBy (Provision besideExe m))
    = Some err →
  hashStore σ = initHashStore NewFileStorePro (Provision besideExe m) prev →
  DumpRequest r (reqHeader σ) = inl dump →
  hashStore σ = None
  ∧ DumpRequestHandler MD5 JSONMarshal rangeKeys DumpRequest fieldKey next w r σ
    = next w r (UpdateContext r (Str fieldKey dump) σ).
Proof.
  intros Hdir Hbeside Hopen Hstore Hdump.
  assert (HashDir (Provision besideExe m) ≠ "") as Hprov.
  { unfold Provision. cbn [HashDir]. by destruct (String.eqb (HashDir m) "on"). }
  assert (hashStore σ = None) as Hnone.
  { rewrite Hstore. unfold initHashStore. apply String.eqb_neq in Hprov as ->.
    cbn [negb]. by rewrite Hopen. }
  split; [done|]. unfold DumpRequestHandler, dumpRequestMsg. rewrite Hdump, Hnone.
  destruct σ as [ls rh h ps st n]. cbn in Hnone. subst st.
  unfold UpdateContext, updateContext. by destruct (ctxLogger r).
Qed.

Lemma store_failure_logs_raw_witness :
  hashStore loggedWorld = None
  ∧ DumpRequestHandler Sample.MD5 Sample.JSONMarshal Sample.rangeKeys Sample.DumpRequest
      "request" (fun _ _ σ => (σ, None)) WHost loggedRequest loggedWorld
    = (UpdateContext loggedRequest
         (Str "request" (Sample.dumpHead loggedRequest (reqHeader loggedWorld)
                         +:+ CRLFCRLF +:+ "a=1&b=" +:+ Sample.bigValue)) loggedWorld, None).
Proof.
  apply (store_failure_logs_raw SampleSetup.besideExe SampleSetup.NewFileStorePro
           Sample.MD5 Sample.JSONMarshal Sample.rangeKeys Sample.DumpRequest
           (mkMiddleware "" "" "on") None "permission denied" "request"
           (Sample.dumpHead loggedRequest (reqHeader loggedWorld)
            +:+ CRLFCRLF +:+ "a=1&b=" +:+ Sample.bigValue)
           (fun _ _ σ => (σ, None)) WHost loggedRequest loggedWorld);
    first [discriminate | reflexivity].
Defined.

(** The logger of that run: the dump is there as it came, the field [b]
    of 1001 bytes in full. *)
Example store_failure_example :
  loggers (DumpRequestHandler Sample.MD5 Sample.JSONMarshal Sample.rangeKeys
             Sample.DumpRequest "request" (fun _ _ σ => (σ, None))
             WHost loggedRequest loggedWorld).1
  = [[("service", VStr "caddy");
      ("request", VStr ("GET / HTTP/1.1" +:+ String CR (String LF "Request-Id: ")
                        +:+ CRLFCRLF +:+ "a=1&b=" +:+ Sample.bigValue))]].
Proof. vm_compute. reflexivity. Qed.

(** ** The chain of [zlog.go], stage by stage *)

Lemma sameButLoggers_refl σ : sameButLoggers σ σ.
Proof. by repeat split. Qed.

Lemma sameButLoggers_trans σ1 σ2 σ3 :
  sameButLoggers σ1 σ2 → sameButLoggers σ2 σ3 → sameButLoggers σ1 σ3.
Proof.
  intros (? & ? & ? & ? & ?) (? & ? & ? & ? & ?). repeat split; congruence.
Qed.

Lemma sameButLoggers_UpdateContext r update σ : sameButLoggers (UpdateContext r update σ) σ.
Proof. by repeat split. Qed.

Lemma passes_comp P Q R (s1 s2 : Stage) :
  passes P Q s1 → passes Q R s2 → passes P R (fun next => s1 (s2 next)).
Proof.
  intros H1 H2 w r σ Hw.
  destruct (H1 w r σ Hw) as (w1 & r1 & σ1 & Hw1 & Hs1).
  destruct (H2 w1 r1 σ1 Hw1) as (w2 & r2 & σ2 & Hw2 & Hs2).
  exists w2, r2, σ2. split; [done|]. intros next.
  destruct (Hs1 (s2 next)) as [He1 Hσ1]. destruct (Hs2 next) as [He2 Hσ2].
  split; [congruence | by eapply sameButLoggers_trans].
Qed.

(** A stage that only prepares the request and the world. *)
Lemma passes_before P (s : Stage) (r' : Request → World → Request) (pre : Request → World → World) :
  (∀ next w r σ, s next w r σ = next w (r' r σ) (pre r σ)) → passes P P s.
Proof.
  intros Hs w r σ Hw. exists w, (r' r σ), (pre r σ). split; [done|]. intros next.
  rewrite Hs. split; [done | apply sameButLoggers_refl].
Qed.

Lemma typedField_one ParseFloat headerName valType v :
  ∃ val, ∀ c, typedField ParseFloat headerName valType v c = (c ++ [(headerName, val)])%list.
Proof.
  unfold typedField.
  destruct (String.eqb valType "bool"); [destruct (ParseBool v); by eexists|].
  destruct (String.eqb valType "float"); [destruct (ParseFloat v); by eexists|].
  destruct (String.eqb valType "int"); [destruct (ParseInt v); by eexists|].
  destruct (String.eqb valType "uint"); [destruct (ParseUint v); by eexists|].
  by eexists.
Qed.

Lemma alter_insert_cell {A} (f : A → A) l x (ls : list A) :
  alter f l (<[l := x]> ls) = <[l := f x]> ls.
Proof. by rewrite !list_insert_alter, list_alter_alter_eq. Qed.

Lemma logsFields_before K M (next : Handler) w r σ σ1 l c pre :
  logsFields K M next → ctxLogger r = Some l → loggers σ !! l = Some c →
  loggers σ1 = <[l := (c ++ pre)%list]> (loggers σ) →
  ∃ fields, loggers (next w r σ1).1 = <[l := (c ++ fields)%list]> (loggers σ)
            ∧ sublist fields.*1 (pre.*1 ++ K)%list
            ∧ Forall (fun k => k ∈ fields.*1) (pre.*1 ++ M)%list.
Proof.
  intros Hnext Hl Hc Hσ1.
  destruct (Hnext w r σ1 l (c ++ pre)%list Hl) as (fields & Hls & Hsub & Hall).
  { rewrite Hσ1. apply list_lookup_insert_eq. by eapply lookup_lt_Some. }
  exists (pre ++ fields)%list. rewrite Hls, Hσ1, list_insert_insert_eq, app_assoc.
  split; [done|]. rewrite fmap_app. split.
  - by apply sublist_app.
  - apply Forall_app. split.
    + apply Forall_forall. intros k Hk. apply elem_of_app. by left.
    + eapply Forall_impl; [exact Hall|]. intros k Hk. apply elem_of_app. by right.
Qed.

Lemma logsFields_same K M (next : Handler) w r σ σ1 l c :
  logsFields K M next → ctxLogger r = Some l → loggers σ !! l = Some c →
  loggers σ1 = loggers σ →
  ∃ fields, loggers (next w r σ1).1 = <[l := (c ++ fields)%list]> (loggers σ)
            ∧ sublist fields.*1 K ∧ Forall (fun k => k ∈ fields.*1) M.
Proof.
  intros Hnext Hl Hc Hσ1.
  apply (logsFields_before K M next w r σ σ1 l c [] Hnext Hl Hc).
  by rewrite app_nil_r, list_insert_id.
Qed.

Lemma logsFields_skip k K M h : logsFields K M h → logsFields (k :: K) M h.
Proof.
  intros Hh w r σ l c Hl Hc. destruct (Hh w r σ l c Hl Hc) as (fields & ? & ? & ?).
  exists fields. repeat split; [done | by apply sublist_cons | done].
Qed.

Lemma logsFields_after K M (next : Handler) w r σ l c post :
  logsFields K M next → ctxLogger r = Some l → loggers σ !! l = Some c →
  ∃ fields,
    loggers (UpdateContext r (fun c => (c ++ post)%list) (next w r σ).1)
    = <[l := (c ++ fields)%list]> (loggers σ)
    ∧ sublist fields.*1 (K ++ post.*1)%list
    ∧ Forall (fun k => k ∈ fields.*1) (M ++ post.*1)%list.
Proof.
  intros Hnext Hl Hc.
  destruct (Hnext w r σ l c Hl Hc) as (fields & Hls & Hsub & Hall).
  exists (fields ++ post)%list. rewrite loggers_UpdateContext, Hl, Hls. cbn [updateContext].
  rewrite alter_insert_cell, app_assoc. split; [done|]. rewrite fmap_app. split.
  - by apply sublist_app.
  - apply Forall_app. split.
    + eapply Forall_impl; [exact Hall|]. intros k Hk. apply elem_of_app. by left.
    + apply Forall_forall. intros k Hk. apply elem_of_app. by right.
Qed.

Lemma loggers_withProxy p method σ : loggers (withProxy p method σ) = loggers σ.
Proof.
  unfold withProxy. destruct (proxies σ !! p); [|done]. by destruct (method _).
Qed.

Lemma loggers_NewRespProxyWriter w σ : loggers (NewRespProxyWriter w σ).2 = loggers σ.
Proof. by destruct w. Qed.

Lemma logsFields_final (final : Handler) :
  (∀ w r σ, loggers (final w r σ).1 = loggers σ) → logsFields [] [] final.
Proof.
  intros Hfinal w r σ l c Hl Hc. exists []. rewrite Hfinal, app_nil_r, list_insert_id by done.
  repeat split; done.
Qed.

Lemma logsFields_HeaderHandler name K M next :
  logsFields K M next → logsFields (name :: K) M (HeaderHandler name next).
Proof.
  intros Hnext w r σ l c Hl Hc. unfold HeaderHandler. cbn zeta.
  destruct (String.eqb _ "").
  - destruct (logsFields_same K M next w r σ σ l c) as (fields & ? & ? & ?); try done.
    exists fields. repeat split; [done | by apply sublist_cons | done].
  - destruct (logsFields_before K M next w r σ
                (UpdateContext r (Str name (HGet (reqHeader σ) name)) σ) l c
                [(name, VStr (HGet (reqHeader σ) name))] Hnext Hl Hc)
      as (fields & ? & ? & Hall).
    { rewrite loggers_UpdateContext, Hl. cbn [updateContext].
      rewrite <- (list_insert_id (loggers σ) l c) at 1 by done.
      by rewrite alter_insert_cell. }
    exists fields. repeat split; [done | done |].
    apply Forall_app in Hall. tauto.
Qed.

Section ChainFacts.

Variable SplitHostPort : string → option (string * string).
Variable MD5 : string → string.
Variable JSONMarshal : gmap string string → string.
Variable rangeKeys : list string → list string.
Variable DumpRequest : Request → Header → string + string.
Variable WriteSubset : Header → string.
Variable DumpResponse : ResponseLog → string.
Variable ParseFloat : string → option float.
Variable ID : Type.
Variable xidFromString : string → option ID.
Variable xidString : ID → string.
Variable xidNew : nat → ID.

Local Abbreviation chain :=
  (servedChain SplitHostPort MD5 JSONMarshal rangeKeys DumpRequest WriteSubset DumpResponse
     ParseFloat ID xidFromString xidString xidNew).

Lemma Then_servedChain log final :
  Then (chain log) final =
  NewHandler log
    (RemoteAddrHandler SplitHostPort "server"
      (HeaderHandler "X-Forwarded-For"
        (HeaderHandler "User-Agent"
          (HeaderHandler "Referer"
            (RequestIDHandler ID xidFromString xidString xidNew "req_id" "Request-Id"
              (DelResponseHeaderHandler "Cost"
                (ResponseHeaderHandler ParseFloat "Cost" "float"
                  (DumpResponseHandler WriteSubset DumpResponse "response"
                    (DumpRequestHandler MD5 JSONMarshal rangeKeys DumpRequest "request"
                       final))))))))).
Proof. reflexivity. Qed.

Lemma passes_RemoteAddrHandler P fieldKey :
  passes P P (RemoteAddrHandler SplitHostPort fieldKey).
Proof.
  apply (passes_before P _ (fun r σ => r)
    (fun r σ => match SplitHostPort (RemoteAddr r) with
                | Some (host, _) => UpdateContext r (Str fieldKey host) σ
                | None => σ
                end)).
  intros next w r σ. unfold RemoteAddrHandler.
  by destruct (SplitHostPort (RemoteAddr r)) as [[h port]|].
Qed.

Lemma logsFields_RemoteAddrHandler fieldKey K M next :
  logsFields K M next →
  logsFields (fieldKey :: K) M (RemoteAddrHandler SplitHostPort fieldKey next).
Proof.
  intros Hnext w r σ l c Hl Hc. unfold RemoteAddrHandler.
  destruct (SplitHostPort (RemoteAddr r)) as [[h port]|].
  - destruct (logsFields_before K M next w r σ (UpdateContext r (Str fieldKey h) σ) l c
                [(fieldKey, VStr h)] Hnext Hl Hc) as (fields & ? & ? & Hall).
    { rewrite loggers_UpdateContext, Hl. cbn [updateContext].
      rewrite <- (list_insert_id (loggers σ) l c) at 1 by done.
      by rewrite alter_insert_cell. }
    exists fields. repeat split; [done | done |].
    apply Forall_app in Hall. tauto.
  - by apply logsFields_skip.
Qed.

Lemma passes_NewHandler P log : passes P P (NewHandler log).
Proof.
  apply (passes_before P _
    (fun r σ => mkRequest (Method r) (RequestURI r) (RemoteAddr r)
                  (Some (install log (loggers σ)).1))
    (fun r σ => setLoggers (install log (loggers σ)).2 σ)).
  done.
Qed.

Lemma passes_HeaderHandler P name : passes P P (HeaderHandler name).
Proof.
  apply (passes_before P _ (fun r σ => r)
    (fun r σ => if String.eqb (HGet (reqHeader σ) name) "" then σ
                else UpdateContext r (Str name (HGet (reqHeader σ) name)) σ)).
  done.
Qed.

Lemma passes_RequestIDHandler P fieldKey headerName :
  passes P P (RequestIDHandler ID xidFromString xidString xidNew fieldKey headerName).
Proof.
  intros w r σ Hw. unfold RequestIDHandler.
  destruct (resolveID _ _ _ _ _) as [id n]. eexists w, r, _. split; [done|].
  intros next. split; [done | apply sameButLoggers_refl].
Qed.

Lemma passes_DumpRequestHandler P fieldKey :
  passes P P (DumpRequestHandler MD5 JSONMarshal rangeKeys DumpRequest fieldKey).
Proof.
  intros w r σ Hw. unfold DumpRequestHandler. destruct (ctxLogger r).
  - destruct (dumpRequestMsg _ _ _ _ _) as [msg store]. eexists w, r, _.
    split; [done|]. intros next. split; [done | apply sameButLoggers_refl].
  - exists w, r, σ. split; [done|]. intros next. split; [done | apply sameButLoggers_refl].
Qed.

Lemma passes_DelResponseHeaderHandler P headerName :
  passes P isProxy (DelResponseHeaderHandler headerName).
Proof.
  intros w r σ _. unfold DelResponseHeaderHandler.
  destruct (NewRespProxyWriter w σ) as [nw σ1]. eexists (WProxy nw), r, _.
  split; [by exists nw|]. intros next. split; [done | apply sameButLoggers_refl].
Qed.

Lemma passes_ResponseHeaderHandler P headerName valType :
  passes P isProxy (ResponseHeaderHandler ParseFloat headerName valType).
Proof.
  intros w r σ _. unfold ResponseHeaderHandler.
  destruct (NewRespProxyWriter w σ) as [nw σ1]. exists (WProxy nw), r, σ1.
  split; [by exists nw|]. intros next. destruct (next (WProxy nw) r σ1) as [σ2 err].
  cbn [fst snd]. split; [done|].
  destruct (String.eqb _ ""); [apply sameButLoggers_refl | apply sameButLoggers_UpdateContext].
Qed.

Lemma passes_DumpResponseHandler P fieldKey :
  passes P isProxy (DumpResponseHandler WriteSubset DumpResponse fieldKey).
Proof.
  intros w r σ _. unfold DumpResponseHandler.
  destruct (NewRespProxyWriter w σ) as [nw σ1]. exists (WProxy nw), r, σ1.
  split; [by exists nw|]. intros next. destruct (next (WProxy nw) r σ1) as [σ2 err].
  cbn [fst snd]. split; [done | apply sameButLoggers_UpdateContext].
Qed.

Lemma passes_servedChain log : passes (fun _ => True) isProxy (Then (chain log)).
Proof.
  assert (Then (chain log) = fun final => Then (chain log) final) as -> by done.
  eapply (passes_comp _ _ _ (NewHandler log)); [apply passes_NewHandler|].
  eapply (passes_comp _ _ _ (RemoteAddrHandler _ _)); [apply passes_RemoteAddrHandler|].
  eapply (passes_comp _ _ _ (HeaderHandler _)); [apply passes_HeaderHandler|].
  eapply (passes_comp _ _ _ (HeaderHandler _)); [apply passes_HeaderHandler|].
  eapply (passes_comp _ _ _ (HeaderHandler _)); [apply passes_HeaderHandler|].
  eapply (passes_comp _ _ _ (RequestIDHandler _ _ _ _ _ _)); [apply passes_RequestIDHandler|].
  eapply (passes_comp _ _ _ (DelResponseHeaderHandler _));
    [apply passes_DelResponseHeaderHandler|].
  eapply (passes_comp _ _ _ (ResponseHeaderHandler _ _ _));
    [apply passes_ResponseHeaderHandler|].
  eapply (passes_comp _ _ _ (DumpResponseHandler _ _ _));
    [apply passes_DumpResponseHandler|].
  apply passes_DumpRequestHandler.
Qed.

Lemma logsFields_RequestIDHandler fieldKey headerName K M next :
  fieldKey ≠ "" →
  logsFields K M next →
  logsFields (fieldKey :: K) (fieldKey :: M)
    (RequestIDHandler ID xidFromString xidString xidNew fieldKey headerName next).
Proof.
  intros Hkey Hnext w r σ l c Hl Hc. unfold RequestIDHandler.
  destruct (resolveID _ _ _ _ _) as [id n]. apply String.eqb_neq in Hkey. rewrite Hkey.
  eapply (logsFields_before K M next _ r σ _ l c [(fieldKey, VStr (xidString id))] Hnext Hl Hc).
  assert (loggers (UpdateContext r (Str fieldKey (xidString id)) (setXids n σ))
          = <[l := (c ++ [(fieldKey, VStr (xidString id))])%list]> (loggers σ)) as Hup.
  { rewrite loggers_UpdateContext, Hl. cbn [updateContext setXids loggers].
    rewrite <- (list_insert_id (loggers σ) l c) at 1 by done.
    by rewrite alter_insert_cell. }
  by destruct (String.eqb headerName "").
Qed.

Lemma logsFields_DumpRequestHandler fieldKey K M next :
  logsFields K M next →
  logsFields (fieldKey :: K) (fieldKey :: M)
    (DumpRequestHandler MD5 JSONMarshal rangeKeys DumpRequest fieldKey next).
Proof.
  intros Hnext w r σ l c Hl Hc. unfold DumpRequestHandler. rewrite Hl.
  destruct (dumpRequestMsg _ _ _ _ _) as [msg store].
  eapply (logsFields_before K M next _ r σ _ l c [(fieldKey, VStr msg)] Hnext Hl Hc).
  rewrite loggers_UpdateContext, Hl. cbn [updateContext setHashStore loggers].
  rewrite <- (list_insert_id (loggers σ) l c) at 1 by done.
  by rewrite alter_insert_cell.
Qed.

Lemma logsFields_DelResponseHeaderHandler headerName K M next :
  logsFields K M next → logsFields K M (DelResponseHeaderHandler headerName next).
Proof.
  intros Hnext w r σ l c Hl Hc. unfold DelResponseHeaderHandler.
  pose proof (loggers_NewRespProxyWriter w σ) as Hnw.
  destruct (NewRespProxyWriter w σ) as [nw σ1]. cbn [snd] in Hnw.
  apply (logsFields_same K M next _ r σ _ l c Hnext Hl Hc).
  by rewrite loggers_withProxy.
Qed.

Lemma logsFields_DumpResponseHandler fieldKey K M next :
  logsFields K M next →
  logsFields (K ++ [fieldKey])%list (M ++ [fieldKey])%list
    (DumpResponseHandler WriteSubset DumpResponse fieldKey next).
Proof.
  intros Hnext w r σ l c Hl Hc. unfold DumpResponseHandler.
  pose proof (loggers_NewRespProxyWriter w σ) as Hnw.
  destruct (NewRespProxyWriter w σ) as [nw σ1]. cbn [snd] in Hnw.
  assert (loggers σ1 !! l = Some c) as Hc1 by by rewrite Hnw.
  destruct (next (WProxy nw) r σ1) as [σ2 err] eqn:Hrun. cbn [fst].
  set (msg := DumpResponse _).
  pose proof (logsFields_after K M next (WProxy nw) r σ1 l c [(fieldKey, VStr msg)]
                Hnext Hl Hc1) as Hafter.
  rewrite Hrun, Hnw in Hafter. exact Hafter.
Qed.

Lemma logsFields_ResponseHeaderHandler headerName valType K M next :
  logsFields K M next →
  logsFields (K ++ [headerName])%list M (ResponseHeaderHandler ParseFloat headerName valType next).
Proof.
  intros Hnext w r σ l c Hl Hc. unfold ResponseHeaderHandler.
  pose proof (loggers_NewRespProxyWriter w σ) as Hnw.
  destruct (NewRespProxyWriter w σ) as [nw σ1]. cbn [snd] in Hnw.
  assert (loggers σ1 !! l = Some c) as Hc1 by by rewrite Hnw.
  destruct (next (WProxy nw) r σ1) as [σ2 err] eqn:Hrun. cbn [fst].
  destruct (String.eqb _ "").
  - destruct (Hnext (WProxy nw) r σ1 l c Hl Hc1) as (fields & Hls & Hsub & Hall).
    rewrite Hrun, Hnw in Hls. exists fields.
    repeat split; [done | by apply sublist_inserts_r | done].
  - destruct (typedField_one ParseFloat headerName valType
                (HGet (SourceHeader (proxyAt nw σ2)) headerName)) as [val Hval].
    pose proof (logsFields_after K M next (WProxy nw) r σ1 l c [(headerName, val)]
                  Hnext Hl Hc1) as (fields & Hls & Hsub & Hall).
    rewrite Hrun, Hnw in Hls. exists fields. split.
    + rewrite <- Hls. rewrite !loggers_UpdateContext, Hl. cbn [updateContext fst].
      apply list_alter_ext; [|done]. intros x _. apply Hval.
    + split; [done|]. apply Forall_app in Hall. tauto.
Qed.

(** X13: around a final handler that leaves the loggers alone, the chain
    [ServeHTTP] builds ([AccessHandler] left out) adds one logger, a copy
    of the base logger followed by the fields of the request, and leaves
    the loggers there were as they are; the keys of the fields are, in
    this order and each at most once, [server], [X-Forwarded-For],
    [User-Agent], [Referer], [req_id], [request], [response], [Cost], and
    [req_id], [request] and [response] are always among them. *)
Theorem servedChain_log_fields log final w r σ :
  (∀ w r σ, loggers (final w r σ).1 = loggers σ) →
  ∃ fields,
    loggers (Then (chain log) final w r σ).1 = (loggers σ ++ [(log ++ fields)%list])%list
    ∧ sublist fields.*1
        ["server"; "X-Forwarded-For"; "User-Agent"; "Referer"; "req_id"; "request";
         "response"; "Cost"]
    ∧ Forall (fun k => k ∈ fields.*1) ["req_id"; "request"; "response"].
Proof.
  intros Hfinal. rewrite Then_servedChain, NewHandler_installs.
  set (inner := RemoteAddrHandler _ _ _).
  assert (logsFields
            ["server"; "X-Forwarded-For"; "User-Agent"; "Referer"; "req_id"; "request";
             "response"; "Cost"] ["req_id"; "request"; "response"] inner) as Hinner.
  { apply logsFields_RemoteAddrHandler. do 3 apply logsFields_HeaderHandler.
    apply logsFields_RequestIDHandler; [done|].
    apply logsFields_DelResponseHeaderHandler.
    apply (logsFields_ResponseHeaderHandler "Cost" "float" ["request"; "response"]).
    apply (logsFields_DumpResponseHandler "response" ["request"] ["request"]).
    apply logsFields_DumpRequestHandler. by apply logsFields_final. }
  destruct (Hinner w
              (mkRequest (Method r) (RequestURI r) (RemoteAddr r)
                 (Some (install log (loggers σ)).1))
              (setLoggers (install log (loggers σ)).2 σ) (length (loggers σ)) log)
    as (fields & Hls & Hsub & Hall); [done | apply list_lookup_middle; done |].
  exists fields. rewrite Hls. cbn [install snd setLoggers loggers].
  rewrite insert_app_r_alt by done. rewrite Nat.sub_diag. done.
Qed.

End ChainFacts.

(** X14: whatever final handler the chain [ServeHTTP] builds
    ([AccessHandler] left out) is put around, the chain calls it once, on
    a proxy writer and with a request and a world that do not depend on
    the handler, returns its error as it is, and after it has returned
    changes nothing but loggers: the response writer, the request headers,
    the proxies, the hash store and the id generator are as the handler
    left them. *)
Theorem servedChain_transparent
    (SplitHostPort : string → option (string * string))
    (MD5 : string → string) (JSONMarshal : gmap string string → string)
    (rangeKeys : list string → list string)
    (DumpRequest : Request → Header → string + string)
    (WriteSubset : Header → string) (DumpResponse : ResponseLog → string)
    (ParseFloat : string → option float) (ID : Type)
    (xidFromString : string → option ID) (xidString : ID → string) (xidNew : nat → ID)
    (log : Context) (w : Writer) (r : Request) (σ : World) :
  ∃ w' r' σ', isProxy w' ∧
    ∀ final : Handler,
      let chain := Then (servedChain SplitHostPort MD5 JSONMarshal rangeKeys DumpRequest
                           WriteSubset DumpResponse ParseFloat ID xidFromString xidString
                           xidNew log) final in
      (chain w r σ).2 = (final w' r' σ').2
      ∧ sameButLoggers (chain w r σ).1 (final w' r' σ').1.
Proof.
  destruct (passes_servedChain SplitHostPort MD5 JSONMarshal rangeKeys DumpRequest
              WriteSubset DumpResponse ParseFloat ID xidFromString xidString xidNew log
              w r σ I)
    as (w' & r' & σ' & Hw & Hall).
  exists w', r', σ'. split; [done|]. intros final. apply Hall.
Qed.

Lemma servedChain_log_fields_witness :
  ∃ fields,
    loggers (Then (servedChain SampleSetup.SplitHostPort Sample.MD5 Sample.JSONMarshal
                     Sample.rangeKeys Sample.DumpRequest Sample.WriteSubset
                     Sample.DumpResponse Sample.ParseFloat string SampleXid.FromString
                     SampleXid.String_ SampleXid.New baseLogger)
                  (fun _ _ σ => (σ, None)) WHost emptyRequest storeWorld).1
    = (loggers storeWorld ++ [(baseLogger ++ fields)%list])%list
    ∧ sublist fields.*1
        ["server"; "X-Forwarded-For"; "User-Agent"; "Referer"; "req_id"; "request";
         "response"; "Cost"]
    ∧ Forall (fun k => k ∈ fields.*1) ["req_id"; "request"; "response"].
Proof.
  apply (servedChain_log_fields SampleSetup.SplitHostPort Sample.MD5 Sample.JSONMarshal
           Sample.rangeKeys Sample.DumpRequest Sample.WriteSubset Sample.DumpResponse
           Sample.ParseFloat string SampleXid.FromString SampleXid.String_ SampleXid.New
           baseLogger (fun _ _ σ => (σ, None)) WHost emptyRequest storeWorld).
  reflexivity.
Defined.

(** The fields of that run, as they come out. *)
Example servedChain_fields_example :
  (λ c : Context, c.*1) <$>
    loggers (Then (servedChain SampleSetup.SplitHostPort Sample.MD5 Sample.JSONMarshal
                     Sample.rangeKeys Sample.DumpRequest Sample.WriteSubset
                     Sample.DumpResponse Sample.ParseFloat string SampleXid.FromString
                     SampleXid.String_ SampleXid.New baseLogger)
                  (respond [OSet "Cost" "0.25"; OWrite "ok"] None)
                  WHost emptyRequest storeWorld).1
  = [["service"; "server"; "User-Agent"; "req_id"; "request"; "response"; "Cost"]].
Proof. vm_compute. reflexivity. Qed.

(** ** The request id, read back *)

Lemma HGet_HSet h key value : HGet (HSet h key value) key = value.
Proof. unfold HGet, HSet. by rewrite lookup_insert_eq. Qed.

(** X15: when [xid.FromString] reads back what [ID.String] writes, the
    id [RequestIDHandler] sets under a non-empty header name is the one
    [IDFromRequest] finds on the request afterwards, so that a second
    [RequestIDHandler] further down settles on the same id and draws no
    new one from the generator. *)
Theorem request_id_readable
    (ID : Type) (xidFromString : string → option ID) (xidString : ID → string)
    (xidNew : nat → ID) (fieldKey headerName : string) (w : Writer) (r : Request)
    (σ : World) :
  headerName ≠ "" →
  (∀ id, xidFromString (xidString id) = Some id) →
  ∃ id σ',
    (∀ next, RequestIDHandler ID xidFromString xidString xidNew fieldKey headerName
               next w r σ = next w r σ')
    ∧ HGet (reqHeader σ') headerName = xidString id
    ∧ IDFromRequest ID xidFromString σ' headerName = Some id
    ∧ resolveID ID xidFromString xidNew σ' headerName = (id, xids σ').
Proof.
  intros Hname Hround. unfold RequestIDHandler.
  destruct (resolveID ID xidFromString xidNew σ headerName) as [id n].
  apply String.eqb_neq in Hname. rewrite Hname.
  exists id. eexists. split; [reflexivity|].
  assert (∀ σ2, HGet (reqHeader (setReqHeader (HSet (reqHeader σ2) headerName (xidString id))
                                   σ2)) headerName = xidString id) as Hget
    by (intros σ2; apply HGet_HSet).
  unfold resolveID, IDFromRequest. rewrite Hget, Hround. done.
Qed.

Lemma SampleSetup_id_round id :
  SampleSetup.idFromString (SampleSetup.idText id) = Some id.
Proof. by destruct id. Qed.

Lemma request_id_readable_witness :
  ∃ id σ',
    (∀ next, RequestIDHandler bool SampleSetup.idFromString SampleSetup.idText
               SampleSetup.idNew "req_id" "Request-Id" next WHost emptyRequest emptyWorld
             = next WHost emptyRequest σ')
    ∧ HGet (reqHeader σ') "Request-Id" = SampleSetup.idText id
    ∧ IDFromRequest bool SampleSetup.idFromString σ' "Request-Id" = Some id
    ∧ resolveID bool SampleSetup.idFromString SampleSetup.idNew σ' "Request-Id"
      = (id, xids σ').
Proof.
  apply (request_id_readable bool SampleSetup.idFromString SampleSetup.idText
           SampleSetup.idNew "req_id" "Request-Id" WHost emptyRequest emptyWorld);
    [discriminate | exact SampleSetup_id_round].
Defined.

(** ** Header names *)

(** A property of bytes checked on the 256 of them. *)
Lemma all_ascii (P : ascii → bool) :
  forallb (fun n => P (ascii_of_nat n)) (seq 0 256) = true → ∀ c, P c = true.
Proof.
  intros Hall c. rewrite forallb_forall in Hall.
  rewrite <- (ascii_nat_embedding c). apply Hall, in_seq.
  pose proof (nat_ascii_bounded c). lia.
Qed.

Lemma canonicalLoop_cons upper c s :
  canonicalLoop upper (String c s)
  = String (canonicalByte upper c)
      (canonicalLoop (Ascii.eqb (canonicalByte upper c) "-") s).
Proof. reflexivity. Qed.

Lemma canonicalByte_facts upper c :
  validHeaderFieldByte (canonicalByte upper c) = validHeaderFieldByte c
  ∧ canonicalByte upper (canonicalByte upper c) = canonicalByte upper c.
Proof.
  pose proof (all_ascii (fun c =>
    forallb (fun u =>
      Bool.eqb (validHeaderFieldByte (canonicalByte u c)) (validHeaderFieldByte c)
      && Ascii.eqb (canonicalByte u (canonicalByte u c)) (canonicalByte u c))
      [true; false]) eq_refl c) as Hc.
  cbn [forallb] in Hc. rewrite !andb_true_iff in Hc.
  destruct Hc as ((Ht1 & Ht2) & (Hf1 & Hf2) & _).
  destruct upper.
  - split; [by apply Bool.eqb_prop | by apply Ascii.eqb_eq].
  - split; [by apply Bool.eqb_prop | by apply Ascii.eqb_eq].
Qed.

Lemma validHeaderKey_canonicalLoop upper s :
  validHeaderKey (canonicalLoop upper s) = validHeaderKey s.
Proof.
  revert upper. induction s as [|c s IH]; intros upper; [done|].
  rewrite canonicalLoop_cons. cbn [validHeaderKey].
  by rewrite IH, (proj1 (canonicalByte_facts upper c)).
Qed.

Lemma canonicalLoop_again upper s :
  canonicalLoop upper (canonicalLoop upper s) = canonicalLoop upper s.
Proof.
  revert upper. induction s as [|c s IH]; intros upper; [done|].
  rewrite !canonicalLoop_cons, (proj2 (canonicalByte_facts upper c)). by rewrite IH.
Qed.

Lemma CanonicalMIMEHeaderKey_again s :
  CanonicalMIMEHeaderKey (CanonicalMIMEHeaderKey s) = CanonicalMIMEHeaderKey s.
Proof.
  unfold CanonicalMIMEHeaderKey. destruct (validHeaderKey s) eqn:Hs.
  - by rewrite validHeaderKey_canonicalLoop, Hs, canonicalLoop_again.
  - by rewrite Hs.
Qed.

(** X16: [textproto.CanonicalMIMEHeaderKey] applied twice is the key
    applied once, so a header set or deleted under one spelling of a name
    is read under every spelling with the same canonical form: [Get] after
    [Set] gives the value set, [Get] after [Del] the empty string. *)
Theorem header_names_canonical (h : Header) (key key' value : string) :
  CanonicalMIMEHeaderKey (CanonicalMIMEHeaderKey key) = CanonicalMIMEHeaderKey key
  ∧ (CanonicalMIMEHeaderKey key' = CanonicalMIMEHeaderKey key →
     HGet (HSet h key value) key' = value
     ∧ HGet (HDel h key) key' = ""
     ∧ HGet h (CanonicalMIMEHeaderKey key) = HGet h key').
Proof.
  split; [apply CanonicalMIMEHeaderKey_again|]. intros Heq.
  unfold HGet, HSet, HDel. rewrite CanonicalMIMEHeaderKey_again, Heq.
  by rewrite lookup_insert_eq, lookup_delete_eq.
Qed.

(** ** The number parsers *)

Lemma digits_head acc c s n :
  digits acc (String c s) = Some n → Ascii.eqb c "+" = false ∧ Ascii.eqb c "-" = false.
Proof.
  cbn [digits]. destruct (between "0" "9" c) eqn:Hc; [|done]. intros _.
  unfold between in Hc. apply andb_true_iff in Hc as [Hlo _].
  split; apply Ascii.eqb_neq; intros ->; done.
Qed.

(** X17: what [strconv.ParseUint] and [strconv.ParseInt] accept is in the
    range of [uint64] and of [int64], and a text [ParseUint] reads as a
    number below [2^63] is read by [ParseInt] as the same number. *)
Theorem number_parsers_in_range (s : string) :
  (∀ n, ParseUint s = Some n → (n < 2 ^ 64)%N)
  ∧ (∀ z, ParseInt s = Some z → (- 2 ^ 63 ≤ z < 2 ^ 63)%Z)
  ∧ (∀ n, ParseUint s = Some n → (n < 2 ^ 63)%N → ParseInt s = Some (Z.of_N n)).
Proof.
  split; [|split].
  - intros n. unfold ParseUint. destruct s as [|c s]; [done|].
    destruct (digits 0 (String c s)) as [m|]; [|done]. cbn.
    destruct (N.ltb_spec m (2 ^ 64)); [|done]. by intros [= <-].
  - intros z. unfold ParseInt. destruct s as [|c s]; [done|]. cbn zeta.
    destruct (if Ascii.eqb c "+" || Ascii.eqb c "-" then s else String c s) as [|d rest];
      [done|].
    destruct (digits 0 (String d rest)) as [un|]; [|done]. cbn.
    destruct (Ascii.eqb c "-").
    + destruct (N.leb_spec un (2 ^ 63)); [|done]. intros [= <-]. lia.
    + destruct (N.ltb_spec un (2 ^ 63)); [|done]. intros [= <-]. lia.
  - intros n Hu Hlt. unfold ParseUint in Hu. destruct s as [|c s]; [done|].
    destruct (digits 0 (String c s)) as [m|] eqn:Hd; [|done]. cbn in Hu.
    destruct (N.ltb_spec m (2 ^ 64)); [|done]. injection Hu as ->.
    destruct (digits_head 0 c s n Hd) as [Hplus Hminus].
    unfold ParseInt. rewrite Hplus, Hminus. cbn [orb]. rewrite Hd.
    apply N.ltb_lt in Hlt. cbn [mbind option_bind]. by rewrite Hlt.
Qed.
